(** * pdf_fusion: the temporary-file registry and the transfer-code exchange

    A shallow embedding of [src/modules/file_manager.py] (class [FileManager])
    together with the part of the operating system it talks to: the files of
    the temporary directory, the clock, the uuid generator and the random
    number generator.

    Conventions of the embedding.
    - A [datetime] is an integer number of microseconds ([Z]); a [timedelta]
      is a difference of two such numbers.  [datetime.now()] is the argument
      [now] of every method that reads the clock; all readings made during
      one call are the same instant.
    - A Python [dict] keyed by strings is a [gmap string _].  The one
      method whose outcome can depend on the insertion order of a
      dictionary, [extend_file_expiration], takes the order of the keys as
      an argument.
    - A method mutates [self] and the disk: it takes the [FileManager] and
      the [Disk] and returns the new ones next to its result.
    - A raised exception is a [None] of the primitive that raises, and the
      [try]/[except] blocks of the source are the [match]es on it.
    - [uuid.uuid4()] and the raw output of [random] are inputs of the
      methods that call them.  The [while True] loop of
      [create_transfer_code] consumes the list of raw outputs it is given;
      it returns [None] when the list ends before the loop does, so that a
      call that never returns is one that is [None] on every list. *)

From Stdlib Require Import ZArith QArith_base List Lia Ascii String.
From stdpp Require Import base option list gmap strings fin_maps fin_sets pretty.

#[local] Set Warnings "-clear-no-such-hyp".

Local Open Scope string_scope.
Local Open Scope list_scope.
Local Open Scope Z_scope.

(** ** Time *)

Definition datetime := Z.

Definition microseconds_per_second : Z := 1000000.
Definition timedelta_minutes (m : Z) : Z := m * 60 * microseconds_per_second.
Definition timedelta_hours (h : Z) : Z := h * 3600 * microseconds_per_second.

(** ** Paths: [os.path.join] and [os.path.splitext] *)

(** [str.rfind] for a single character: the index of its last occurrence,
    or [-1]. *)
Fixpoint rfind (c : ascii) (s : string) : Z :=
  match s with
  | EmptyString => -1
  | String a s' =>
      let r := rfind c s' in
      if 0 <=? r then r + 1
      else if Ascii.eqb a c then 0 else -1
  end.

(** The second component of [os.path.splitext(p)] (posixpath): the suffix
    that starts at the last dot, when that dot stands after the last
    separator and some character other than a dot precedes it in the file
    name; the empty string otherwise. *)
Definition splitext_ext (p : string) : string :=
  let sepIndex := rfind "/" p in
  let dotIndex := rfind "." p in
  if sepIndex <? dotIndex then
    let stem := substring (Z.to_nat (sepIndex + 1))
                          (Z.to_nat (dotIndex - sepIndex - 1)) p in
    if existsb (fun c => negb (Ascii.eqb c ".")) (list_ascii_of_string stem)
    then substring (Z.to_nat dotIndex) (String.length p - Z.to_nat dotIndex) p
    else ""
  else "".

(** [os.path.join(a, b)] for a relative [b] and an [a] that does not end in
    a separator, which is how the class calls it. *)
Definition os_path_join (a b : string) : string := a +:+ "/" +:+ b.

(** ** The disk *)

Definition bytes := list Byte.byte.

Record DiskFile := mkDiskFile {
  df_data : bytes;
  df_mtime : datetime
}.

(** [d_files]: the regular files by full path.  [d_dirs]: the directories
    that exist.  [d_protected]: the paths on which [os.remove] and opening
    for writing raise [PermissionError]. *)
Record Disk := mkDisk {
  d_files : gmap string DiskFile;
  d_dirs : gset string;
  d_protected : gset string
}.

Definition set_files (fs : gmap string DiskFile) (d : Disk) : Disk :=
  mkDisk fs (d_dirs d) (d_protected d).

Definition os_path_exists (d : Disk) (p : string) : bool :=
  bool_decide (is_Some (d_files d !! p)) || bool_decide (p ∈ d_dirs d).

Definition os_path_isfile (d : Disk) (p : string) : bool :=
  bool_decide (is_Some (d_files d !! p)).

(** [os.remove(p)]; [None] when it raises (no such file, a directory, or a
    protected path). *)
Definition os_remove (d : Disk) (p : string) : option Disk :=
  match d_files d !! p with
  | Some _ =>
      if bool_decide (p ∈ d_protected d) then None
      else Some (set_files (delete p (d_files d)) d)
  | None => None
  end.

(** [os.path.getmtime(p)]; [None] when it raises. *)
Definition os_path_getmtime (d : Disk) (p : string) : option datetime :=
  df_mtime <$> d_files d !! p.

(** [with open(p, "wb") as f: f.write(data)] at time [now]; [None] when
    opening raises (the path is a directory or is protected). *)
Definition write_file (d : Disk) (p : string) (data : bytes) (now : datetime)
  : option Disk :=
  if bool_decide (p ∈ d_dirs d) || bool_decide (p ∈ d_protected d) then None
  else Some (set_files (<[p := mkDiskFile data now]> (d_files d)) d).

(** [with open(p, "rb") as f: f.read()]; [None] when opening raises. *)
Definition read_file (d : Disk) (p : string) : option bytes :=
  df_data <$> d_files d !! p.

(** [shutil.copy2(src, dst)]: the bytes and the modification time of [src]
    are copied; [None] when it raises. *)
Definition shutil_copy2 (d : Disk) (src dst : string) : option Disk :=
  match d_files d !! src with
  | Some f =>
      if bool_decide (dst ∈ d_dirs d) || bool_decide (dst ∈ d_protected d)
      then None
      else Some (set_files (<[dst := f]> (d_files d)) d)
  | None => None
  end.

(** The name of [path] inside the directory [dir], when [path] is an entry
    of [dir] itself. *)
Definition entry_name (dir path : string) : option string :=
  let pre := dir +:+ "/" in
  if String.prefix pre path then
    let name := substring (String.length pre)
                          (String.length path - String.length pre) path in
    if bool_decide (name = "") || (0 <=? rfind "/" name) then None
    else Some name
  else None.

(** [os.listdir(dir)], regular files only; [None] when it raises (no such
    directory).  A sub-directory of the temporary directory never changes
    what the loops over this list do: [os.remove] and [os.path.isfile]
    reject it. *)
Definition os_listdir (d : Disk) (dir : string) : option (list string) :=
  if bool_decide (dir ∈ d_dirs d)
  then Some (omap (entry_name dir) (map_to_list (d_files d)).*1)
  else None.

(** [os.makedirs(dir, exist_ok=True)]. *)
Definition os_makedirs (d : Disk) (dir : string) : Disk :=
  mkDisk (d_files d) ({[dir]} ∪ d_dirs d) (d_protected d).

(** ** The data of [FileManager] *)

(** What Streamlit hands over for an upload: [.name] and [.getvalue()]. *)
Record UploadedFile := mkUploadedFile {
  uf_name : string;
  uf_value : bytes
}.

(** A value of [file_registry].  [save_processed_file] stores neither
    ['is_admin'] nor ['file_id']: the two keys are optional. *)
Record FileInfo := mkFileInfo {
  fi_path : string;
  fi_original_name : string;
  fi_created_at : datetime;
  fi_expires_at : datetime;
  fi_size : nat;
  fi_is_admin : option bool;
  fi_file_id : option string
}.

(** A value of [transfer_codes]. *)
Record TransferInfo := mkTransferInfo {
  ti_file_path : string;
  ti_original_name : string;
  ti_created_at : datetime;
  ti_expires_at : datetime;
  ti_size : nat;
  ti_downloaded : bool
}.

Definition set_downloaded (b : bool) (t : TransferInfo) : TransferInfo :=
  mkTransferInfo (ti_file_path t) (ti_original_name t) (ti_created_at t)
                 (ti_expires_at t) (ti_size t) b.

Record FileManager := mkFileManager {
  temp_dir : string;
  app_temp_dir : string;
  file_registry : gmap string FileInfo;
  transfer_codes : gmap string TransferInfo;
  expiration_minutes : Z;
  admin_expiration_hours : Z
}.

Definition set_file_registry (r : gmap string FileInfo) (fm : FileManager)
  : FileManager :=
  mkFileManager (temp_dir fm) (app_temp_dir fm) r (transfer_codes fm)
                (expiration_minutes fm) (admin_expiration_hours fm).

Definition set_transfer_codes (t : gmap string TransferInfo) (fm : FileManager)
  : FileManager :=
  mkFileManager (temp_dir fm) (app_temp_dir fm) (file_registry fm) t
                (expiration_minutes fm) (admin_expiration_hours fm).

(** The outcome of a method that re-raises: the value it returns, or the
    message of the [Exception] it raises. *)
Inductive outcome (A : Type) : Type :=
| Returned (a : A)
| Raised (msg : string).
Arguments Returned {A} a.
Arguments Raised {A} msg.

(** ** The methods *)

(** [FileManager.__init__]; [tmp] is [tempfile.gettempdir()]. *)
Definition init (tmp : string) (d : Disk) : FileManager * Disk :=
  let app_temp_dir := os_path_join tmp "pdf_processor" in
  (mkFileManager tmp app_temp_dir ∅ ∅ 30 48, os_makedirs d app_temp_dir).

Definition save_uploaded_file (uuid4 : string) (now : datetime)
    (uploaded_file : UploadedFile) (is_admin : bool)
    (fm : FileManager) (d : Disk) : outcome string * FileManager * Disk :=
  let file_id := uuid4 in
  let file_extension := splitext_ext (uf_name uploaded_file) in
  let temp_filename := file_id +:+ file_extension in
  let temp_path := os_path_join (app_temp_dir fm) temp_filename in
  match write_file d temp_path (uf_value uploaded_file) now with
  | None => (Raised "Error saving uploaded file", fm, d)
  | Some d' =>
      let expiration_time :=
        if is_admin then now + timedelta_hours (admin_expiration_hours fm)
        else now + timedelta_minutes (expiration_minutes fm) in
      let info := mkFileInfo temp_path (uf_name uploaded_file) now
                    expiration_time (length (uf_value uploaded_file))
                    (Some is_admin) (Some file_id) in
      (Returned temp_path,
       set_file_registry (<[file_id := info]> (file_registry fm)) fm, d')
  end.

Definition save_processed_file (uuid4 : string) (now : datetime)
    (source_path output_name : string)
    (fm : FileManager) (d : Disk) : outcome string * FileManager * Disk :=
  let file_id := uuid4 in
  let file_extension := splitext_ext output_name in
  let temp_filename := file_id +:+ file_extension in
  let temp_path := os_path_join (app_temp_dir fm) temp_filename in
  match shutil_copy2 d source_path temp_path with
  | None => (Raised "Error saving processed file", fm, d)
  | Some d' =>
      match d_files d' !! temp_path with
      | None => (Raised "Error saving processed file", fm, d')
      | Some f =>
          let file_size := length (df_data f) in
          let info := mkFileInfo temp_path output_name now
                        (now + timedelta_minutes (expiration_minutes fm))
                        file_size None None in
          (Returned temp_path,
           set_file_registry (<[file_id := info]> (file_registry fm)) fm, d')
      end
  end.

Definition create_download_link (uuid4 : string) (now : datetime)
    (file_path download_name : string)
    (fm : FileManager) (d : Disk) : outcome string * FileManager * Disk :=
  match save_processed_file uuid4 now file_path download_name fm d with
  | (Returned managed_path, fm', d') => (Returned managed_path, fm', d')
  | (Raised _, fm', d') => (Raised "Error creating download link", fm', d')
  end.

(** The body of the loop of [_cleanup_orphaned_files] for one [filename]. *)
Definition orphan_step (now : datetime) (dir : string)
    (registered_paths : gset string) (window : Z)
    (d : Disk) (filename : string) : Disk :=
  let file_path := os_path_join dir filename in
  if bool_decide (file_path ∈ registered_paths) then d
  else
    match os_path_getmtime d file_path with
    | None => d
    | Some file_modified =>
        let file_age := now - file_modified in
        if window * 60 * microseconds_per_second <? file_age then
          match os_remove d file_path with
          | Some d' => d'
          | None => d
          end
        else d
    end.

(** The age test [file_age.total_seconds() > expiration_minutes * 60] is
    the comparison of the two sides in microseconds. *)
Definition _cleanup_orphaned_files (now : datetime)
    (fm : FileManager) (d : Disk) : Disk :=
  if negb (os_path_exists d (app_temp_dir fm)) then d
  else
    let current_time := now in
    let registered_paths : gset string :=
      map_img (fi_path <$> file_registry fm) in
    match os_listdir d (app_temp_dir fm) with
    | None => d
    | Some names =>
        foldl (orphan_step current_time (app_temp_dir fm) registered_paths
                 (expiration_minutes fm)) d names
    end.

(** The first loop of [cleanup_expired_files]. *)
Definition expired_files (current_time : datetime)
    (reg : gmap string FileInfo) : list string :=
  (filter (fun kv => fi_expires_at kv.2 < current_time) (map_to_list reg)).*1.

(** [try: if os.path.exists(p): os.remove(p)] with an [except] that goes
    on: the deletion used by both sweeps. *)
Definition remove_if_exists (d : Disk) (file_path : string) : Disk :=
  if os_path_exists d file_path then
    match os_remove d file_path with
    | Some d' => d'
    | None => d
    end
  else d.

(** The second loop of [cleanup_expired_files].  The boolean says whether
    the loop ran to its end: [self.file_registry[file_id]] raises
    [KeyError] on a missing key, which leaves the loop for the outer
    [except]. *)
Fixpoint remove_expired (ids : list string) (fm : FileManager) (d : Disk)
  : bool * FileManager * Disk :=
  match ids with
  | [] => (true, fm, d)
  | file_id :: rest =>
      match file_registry fm !! file_id with
      | None => (false, fm, d)
      | Some file_info =>
          let file_path := fi_path file_info in
          let d' := remove_if_exists d file_path in
          remove_expired rest
            (set_file_registry (delete file_id (file_registry fm)) fm) d'
      end
  end.

(** [cleanup_expired_files] has no [return]: its result is the new state. *)
Definition cleanup_expired_files (now : datetime)
    (fm : FileManager) (d : Disk) : FileManager * Disk :=
  let current_time := now in
  let expired := expired_files current_time (file_registry fm) in
  match remove_expired expired fm d with
  | (true, fm', d') => (fm', _cleanup_orphaned_files now fm' d')
  | (false, fm', d') => (fm', d')
  end.

Definition get_file_info (file_id : string) (fm : FileManager)
  : option FileInfo :=
  file_registry fm !! file_id.

Definition get_all_files (fm : FileManager) : gmap string FileInfo :=
  file_registry fm.

(** The body of the second loop of [force_cleanup_all]. *)
Definition remove_if_file (dir : string) (d : Disk) (filename : string)
  : Disk :=
  let file_path := os_path_join dir filename in
  if os_path_isfile d file_path then
    match os_remove d file_path with
    | Some d' => d'
    | None => d
    end
  else d.

Definition force_cleanup_all (fm : FileManager) (d : Disk)
  : FileManager * Disk :=
  let d1 := foldl remove_if_exists d
              (fi_path <$> (map_to_list (file_registry fm)).*2) in
  let fm' := set_file_registry ∅ fm in
  if os_path_exists d1 (app_temp_dir fm) then
    match os_listdir d1 (app_temp_dir fm) with
    | None => (fm', d1)
    | Some names => (fm', foldl (remove_if_file (app_temp_dir fm)) d1 names)
    end
  else (fm', d1).

Definition delete_file (file_id : string) (fm : FileManager) (d : Disk)
  : bool * FileManager * Disk :=
  match file_registry fm !! file_id with
  | Some file_info =>
      let file_path := fi_path file_info in
      if os_path_exists d file_path then
        match os_remove d file_path with
        | Some d' =>
            (true, set_file_registry (delete file_id (file_registry fm)) fm, d')
        | None => (false, fm, d)
        end
      else (true, set_file_registry (delete file_id (file_registry fm)) fm, d)
  | None => (false, fm, d)
  end.

(** [random.randint(a, b)] on the raw output [raw] of the generator: an
    integer of the closed interval from [a] to [b]. *)
Definition random_randint (a b : Z) (raw : nat) : Z :=
  a + Z.of_nat raw mod (b - a + 1).

(** The code that one pass through the loop draws: the f-string of the
    integer drawn. *)
Definition draw_code (raw : nat) : string :=
  pretty (random_randint 1000 9999 raw).

(** The [while True] loop of [create_transfer_code], run on the successive
    raw outputs [draws] of the generator: [Some code] when the loop breaks
    with [code], [None] when it is still running after the last of
    [draws]. *)
Fixpoint generate_code (draws : list nat) (codes : gmap string TransferInfo)
  : option string :=
  match draws with
  | [] => None
  | raw :: rest =>
      let code := draw_code raw in
      match codes !! code with
      | None => Some code
      | Some _ => generate_code rest codes
      end
  end.

(** [None]: the call has not returned after [draws]. *)
Definition create_transfer_code (draws : list nat) (uuid4 : string)
    (now : datetime) (uploaded_file : UploadedFile)
    (fm : FileManager) (d : Disk)
  : option (outcome string * FileManager * Disk) :=
  match generate_code draws (transfer_codes fm) with
  | None => None
  | Some code =>
      let file_id := uuid4 in
      let file_extension := splitext_ext (uf_name uploaded_file) in
      let temp_filename := "transfer_" +:+ file_id +:+ file_extension in
      let temp_path := os_path_join (app_temp_dir fm) temp_filename in
      match write_file d temp_path (uf_value uploaded_file) now with
      | None => Some (Raised "Error creating transfer code", fm, d)
      | Some d' =>
          let info := mkTransferInfo temp_path (uf_name uploaded_file) now
                        (now + timedelta_hours 24)
                        (length (uf_value uploaded_file)) false in
          Some (Returned code,
                set_transfer_codes (<[code := info]> (transfer_codes fm)) fm,
                d')
      end
  end.

Definition get_file_by_code (code : string) (fm : FileManager)
  : option TransferInfo :=
  transfer_codes fm !! code.

Definition download_by_code (code : string) (now : datetime)
    (fm : FileManager) (d : Disk)
  : option (bytes * string) * FileManager * Disk :=
  match transfer_codes fm !! code with
  | Some file_info =>
      if ti_expires_at file_info <? now then (None, fm, d)
      else if negb (os_path_exists d (ti_file_path file_info))
      then (None, fm, d)
      else
        match read_file d (ti_file_path file_info) with
        | None => (None, fm, d)
        | Some file_data =>
            (Some (file_data, ti_original_name file_info),
             set_transfer_codes
               (<[code := set_downloaded true file_info]> (transfer_codes fm))
               fm,
             d)
        end
  | None => (None, fm, d)
  end.

(** ** The class as a transition system *)

Definition State : Type := FileManager * Disk.

Inductive op : Type :=
| SaveUploadedFile (uuid4 : string) (f : UploadedFile) (is_admin : bool)
| SaveProcessedFile (uuid4 source_path output_name : string)
| CreateDownloadLink (uuid4 file_path download_name : string)
| CleanupExpiredFiles
| GetFileInfo (file_id : string)
| GetAllFiles
| ForceCleanupAll
| DeleteFile (file_id : string)
| CreateTransferCode (draws : list nat) (uuid4 : string) (f : UploadedFile)
| GetFileByCode (code : string)
| DownloadByCode (code : string)
| Outside (reg : gmap string FileInfo) (d : Disk).

Inductive result : Type :=
| RPath (r : outcome string)
| RCode (r : outcome string)
| RNone
| RInfo (r : option FileInfo)
| RFiles (r : gmap string FileInfo)
| RBool (r : bool)
| RTransfer (r : option TransferInfo)
| RDownload (r : option (bytes * string)).

(** One call at time [now].  [Outside] stands for what happens to the
    registry and to the disk without the methods above: the expiry of an
    entry is extended, a caller writes to the dictionary it got from
    [get_all_files], another process touches the temporary directory.
    Nothing outside the two transfer methods writes [transfer_codes].
    [None]: the call does not return. *)
Definition exec (now : datetime) (o : op) (st : State)
  : option (result * State) :=
  let '(fm, d) := st in
  match o with
  | SaveUploadedFile uuid4 f is_admin =>
      let '(r, fm', d') := save_uploaded_file uuid4 now f is_admin fm d in
      Some (RPath r, (fm', d'))
  | SaveProcessedFile uuid4 src name =>
      let '(r, fm', d') := save_processed_file uuid4 now src name fm d in
      Some (RPath r, (fm', d'))
  | CreateDownloadLink uuid4 src name =>
      let '(r, fm', d') := create_download_link uuid4 now src name fm d in
      Some (RPath r, (fm', d'))
  | CleanupExpiredFiles => Some (RNone, cleanup_expired_files now fm d)
  | GetFileInfo file_id => Some (RInfo (get_file_info file_id fm), st)
  | GetAllFiles => Some (RFiles (get_all_files fm), st)
  | ForceCleanupAll => Some (RNone, force_cleanup_all fm d)
  | DeleteFile file_id =>
      let '(r, fm', d') := delete_file file_id fm d in
      Some (RBool r, (fm', d'))
  | CreateTransferCode draws uuid4 f =>
      match create_transfer_code draws uuid4 now f fm d with
      | Some (r, fm', d') => Some (RCode r, (fm', d'))
      | None => None
      end
  | GetFileByCode code => Some (RTransfer (get_file_by_code code fm), st)
  | DownloadByCode code =>
      let '(r, fm', d') := download_by_code code now fm d in
      Some (RDownload r, (fm', d'))
  | Outside reg d' => Some (RNone, (set_file_registry reg fm, d'))
  end.

(** A run: the calls made, each with its time and its result. *)
Inductive steps : State -> list (datetime * op * result) -> State -> Prop :=
| steps_nil st : steps st [] st
| steps_cons st now o r st1 tr st' :
    exec now o st = Some (r, st1) ->
    steps st1 tr st' ->
    steps st ((now, o, r) :: tr) st'.

(** The states the application can be in: those a run reaches from a fresh
    [FileManager()]. *)
Definition reachable (st : State) : Prop :=
  exists tmp d0 tr, steps (init tmp d0) tr st.

(** The codes that the calls of a run returned. *)
Fixpoint issued (tr : list (datetime * op * result)) : list string :=
  match tr with
  | [] => []
  | (_, CreateTransferCode _ _ _, RCode (Returned code)) :: tr' =>
      code :: issued tr'
  | _ :: tr' => issued tr'
  end.

(** ** Notions used in the statements *)

(** A code is valid when it is the decimal writing of an integer from 1000
    to 9999. *)
Definition valid_code (code : string) : Prop :=
  exists n : Z, 1000 <= n <= 9999 /\ code = pretty n.

(** The valid codes, one by one. *)
Definition all_codes : list string :=
  (fun k : nat => pretty (1000 + Z.of_nat k)) <$> seq 0 (Z.to_nat 9000).

(** The four-character writing of [n] with leading zeros (["0042"]). *)
Definition digit_char (k : Z) : ascii := ascii_of_nat (48 + Z.to_nat k).
Definition four_digits (n : Z) : string :=
  String (digit_char (n / 1000 mod 10))
    (String (digit_char (n / 100 mod 10))
       (String (digit_char (n / 10 mod 10))
          (String (digit_char (n mod 10)) EmptyString))).

(** The files of a disk only disappear between [d] and [d']. *)
Definition disk_shrinks (d d' : Disk) : Prop :=
  d_files d' ⊆ d_files d /\ d_dirs d' = d_dirs d /\
  d_protected d' = d_protected d.

(** ** Sample states *)

Definition empty_disk : Disk := mkDisk ∅ ∅ ∅.

(** A fresh [FileManager()] on a machine whose temporary directory is
    [/tmp]. *)
Definition fresh : State := init "/tmp" empty_disk.

(** An upload [a.pdf] of four bytes. *)
Definition a_pdf : UploadedFile :=
  mkUploadedFile "a.pdf" [Byte.x25; Byte.x50; Byte.x44; Byte.x46].

(** The state after [a.pdf] was sent at time 0 and the generator drew 1234:
    the code is ["1234"]. *)
Definition sent : State :=
  match create_transfer_code [234%nat] "u1" 0 a_pdf fresh.1 fresh.2 with
  | Some (_, fm, d) => (fm, d)
  | None => fresh
  end.

(** The same state after a second file was sent at the same time. *)
Definition sent_twice : State :=
  match create_transfer_code [234%nat; 4321%nat] "u2" 0 a_pdf sent.1 sent.2 with
  | Some (_, fm, d) => (fm, d)
  | None => sent
  end.

(** A manager in which every valid code has a record. *)
Definition old_transfer : TransferInfo :=
  mkTransferInfo "/tmp/pdf_processor/transfer_u0.pdf" "a.pdf" 0
                 (timedelta_hours 24) 4 false.
Definition full_codes : gmap string TransferInfo :=
  list_to_map ((fun code => (code, old_transfer)) <$> all_codes).
Definition fm_full : FileManager := set_transfer_codes full_codes fresh.1.

(** A manager with one registry entry ["f1"] that expires at the instant
    100, its file on a disk, and the same disk with the path protected. *)
Definition info1 : FileInfo :=
  mkFileInfo "/tmp/pdf_processor/f1.pdf" "a.pdf" 0 100 4
             (Some false) (Some "f1").
Definition fm_reg : FileManager :=
  set_file_registry {[ "f1" := info1 ]} fresh.1.
Definition disk_reg : Disk :=
  mkDisk {[ "/tmp/pdf_processor/f1.pdf" := mkDiskFile (uf_value a_pdf) 0 ]}
         {[ "/tmp/pdf_processor" ]} ∅.
Definition disk_locked : Disk :=
  mkDisk (d_files disk_reg) (d_dirs disk_reg) {[ "/tmp/pdf_processor/f1.pdf" ]}.

(** A run of two calls from [fresh] that leads to [sent_twice]: the second
    call first draws the code of the first and draws again. *)
Definition run_two : list (datetime * op * result) :=
  [ (0, CreateTransferCode [234%nat] "u1" a_pdf, RCode (Returned "1234"));
    (0, CreateTransferCode [234%nat; 4321%nat] "u2" a_pdf,
     RCode (Returned "5321")) ].

(** ** The rest of the class *)

(** The range of [datetime] and of [timedelta].  Instants are counted from
    [datetime.min]; [datetime_max] is 9999-12-31 23:59:59.999999.  The
    sums of the methods above stay in range for every reading of the clock
    that is 48 hours or more before [datetime.max]. *)
Definition microseconds_per_day : Z := 86400 * microseconds_per_second.
Definition datetime_max : Z := 3652058 * microseconds_per_day + 86399999999.
Definition timedelta_min : Z := -999999999 * microseconds_per_day.
Definition timedelta_max : Z :=
  999999999 * microseconds_per_day + 86399999999.

(** [timedelta(minutes=m)]; [None] when it raises [OverflowError]. *)
Definition timedelta_of_minutes (m : Z) : option Z :=
  let td := timedelta_minutes m in
  if (timedelta_min <=? td) && (td <=? timedelta_max) then Some td else None.

(** [t + td] on a [datetime]; [None] when it raises [OverflowError]. *)
Definition datetime_add (t : datetime) (td : Z) : option datetime :=
  let r := t + td in
  if (0 <=? r) && (r <=? datetime_max) then Some r else None.

Definition set_expires_at (t : datetime) (i : FileInfo) : FileInfo :=
  mkFileInfo (fi_path i) (fi_original_name i) (fi_created_at i) t
             (fi_size i) (fi_is_admin i) (fi_file_id i).

(** [self.file_registry.items()] when the dictionary yields its keys in the
    order [order] (the order of insertion). *)
Definition registry_items (order : list string)
    (reg : gmap string FileInfo) : list (string * FileInfo) :=
  omap (fun file_id => (fun info => (file_id, info)) <$> reg !! file_id) order.

(** [extend_file_expiration]: the loop returns at the first entry whose
    path is [file_path]; an overflow of the sum leaves through the
    [except].  The disk is not touched. *)
Definition extend_file_expiration (order : list string) (file_path : string)
    (additional_minutes : Z) (fm : FileManager) : bool * FileManager :=
  match list_find (fun kv => fi_path kv.2 = file_path)
                  (registry_items order (file_registry fm)) with
  | Some (_, (file_id, file_info)) =>
      match timedelta_of_minutes additional_minutes with
      | None => (false, fm)
      | Some td =>
          match datetime_add (fi_expires_at file_info) td with
          | None => (false, fm)
          | Some new_expiration =>
              (true,
               set_file_registry
                 (<[file_id := set_expires_at new_expiration file_info]>
                    (file_registry fm)) fm)
          end
      end
  | None => (false, fm)
  end.

(** [os.path.getsize(p)] of a regular file. *)
Definition os_path_getsize (d : Disk) (p : string) : nat :=
  match d_files d !! p with
  | Some f => length (df_data f)
  | None => 0
  end.

(** The result of [get_storage_stats].  A size in megabytes is the number
    of bytes divided by [1024 * 1024]; the quotient of the source, a float,
    is this rational exactly for every number of bytes below [2^53]. *)
Record StorageStats := mkStorageStats {
  managed_files : nat;
  managed_size_mb : Q;
  temp_dir_size_mb : Q;
  stats_expiration_minutes : Z
}.

Definition bytes_to_mb (n : nat) : Q := Qmake (Z.of_nat n) 1048576.

(** The body of the loop of [get_storage_stats]. *)
Definition add_file_size (dir : string) (d : Disk) (temp_dir_size : nat)
    (filename : string) : nat :=
  let file_path := os_path_join dir filename in
  if os_path_isfile d file_path
  then (temp_dir_size + os_path_getsize d file_path)%nat
  else temp_dir_size.

(** [get_storage_stats]; [os.listdir] is the one call of the [try] block
    that can raise. *)
Definition get_storage_stats (fm : FileManager) (d : Disk) : StorageStats :=
  let total_files := size (file_registry fm) in
  let total_size :=
    sum_list (fi_size <$> (map_to_list (file_registry fm)).*2) in
  let temp_dir_size :=
    if os_path_exists d (app_temp_dir fm) then
      match os_listdir d (app_temp_dir fm) with
      | None => None
      | Some names => Some (foldl (add_file_size (app_temp_dir fm) d) 0%nat
                              names)
      end
    else Some 0%nat in
  match temp_dir_size with
  | Some temp_dir_size =>
      mkStorageStats total_files (bytes_to_mb total_size)
                     (bytes_to_mb temp_dir_size) (expiration_minutes fm)
  | None =>
      mkStorageStats 0 (bytes_to_mb 0) (bytes_to_mb 0) (expiration_minutes fm)
  end.

(** ** The receiving side of [handle_file_transfer] ([app.py]) *)



(** ** Further notions used in the statements *)

(** [cleanup_expired_files] run at each of the instants [times] in turn,
    as [main] does at the end of every run of the script. *)
Definition sweeps (times : list datetime) (st : State) : State :=
  foldl (fun st t => cleanup_expired_files t st.1 st.2) st times.

(** A plain file name: not empty and without a separator. *)
Definition plain_name (name : string) : Prop :=
  name <> "" /\ rfind "/" name = -1.

(** The four range tests that [extend_file_expiration] has to pass for an
    entry that expires at [expires_at]. *)
Definition extension_in_range (expires_at additional_minutes : Z) : Prop :=
  timedelta_min <= timedelta_minutes additional_minutes <= timedelta_max /\
  0 <= expires_at + timedelta_minutes additional_minutes <= datetime_max.

(** [file_id] is the one entry of the registry with the path [file_path]. *)
Definition only_entry_at (fm : FileManager) (file_id : string)
    (info : FileInfo) (file_path : string) : Prop :=
  file_registry fm !! file_id = Some info /\ fi_path info = file_path /\
  forall other info',
    file_registry fm !! other = Some info' -> fi_path info' = file_path ->
    other = file_id.

(** Some entry of the registry has the path [p]. *)
Definition registered (fm : FileManager) (p : string) : Prop :=
  exists file_id info,
    file_registry fm !! file_id = Some info /\ fi_path info = p.

(** The file at [p], if there is one, was modified more than
    [expiration_minutes] before [now]. *)
Definition older_than_window (now : datetime) (fm : FileManager) (d : Disk)
    (p : string) : Prop :=
  exists f, d_files d !! p = Some f /\
            timedelta_minutes (expiration_minutes fm) < now - df_mtime f.

(** * Properties *)

(** ** The codes that are drawn *)

Lemma random_randint_range (a b : Z) (raw : nat) :
  a <= b -> a <= random_randint a b raw <= b.
Proof.
  intros Hab. unfold random_randint.
  pose proof (Z.mod_pos_bound (Z.of_nat raw) (b - a + 1)) as Hm. lia.
Qed.

Lemma random_randint_onto (a b n : Z) :
  a <= n <= b -> random_randint a b (Z.to_nat (n - a)) = n.
Proof.
  intros Hn. unfold random_randint.
  rewrite Z2Nat.id by lia. rewrite Z.mod_small by lia. lia.
Qed.

Lemma draw_code_valid (raw : nat) : valid_code (draw_code raw).
Proof.
  exists (random_randint 1000 9999 raw). split; [|reflexivity].
  apply random_randint_range. lia.
Qed.

Lemma valid_code_drawn (code : string) :
  valid_code code -> exists raw, draw_code raw = code.
Proof.
  intros (n & Hn & ->). exists (Z.to_nat (n - 1000)).
  unfold draw_code. now rewrite random_randint_onto.
Qed.

(** The loop breaks with the first code drawn that is not a key. *)
Lemma generate_code_app (pre post : list nat) (raw : nat)
    (codes : gmap string TransferInfo) :
  Forall (fun r => is_Some (codes !! draw_code r)) pre ->
  codes !! draw_code raw = None ->
  generate_code (pre ++ raw :: post) codes = Some (draw_code raw).
Proof.
  induction 1 as [|r pre [x Hx] _ IH]; intros Hfree; simpl.
  - now rewrite Hfree.
  - rewrite Hx. now apply IH.
Qed.

Lemma generate_code_Some (draws : list nat) (codes : gmap string TransferInfo)
    (code : string) :
  generate_code draws codes = Some code ->
  exists pre raw post,
    draws = pre ++ raw :: post /\ code = draw_code raw /\
    codes !! code = None /\
    Forall (fun r => is_Some (codes !! draw_code r)) pre.
Proof.
  induction draws as [|r draws IH]; simpl; [discriminate|].
  destruct (codes !! draw_code r) as [x|] eqn:Hr.
  - intros Hg. destruct (IH Hg) as (pre & raw & post & -> & -> & Hn & Hpre).
    exists (r :: pre), raw, post. repeat split; auto.
  - intros [= <-]. exists [], r, draws. repeat split; auto.
Qed.

Lemma generate_code_None (draws : list nat)
    (codes : gmap string TransferInfo) :
  generate_code draws codes = None <->
  Forall (fun r => is_Some (codes !! draw_code r)) draws.
Proof.
  induction draws as [|r draws IH]; simpl.
  - split; auto.
  - destruct (codes !! draw_code r) as [x|] eqn:Hr.
    + rewrite IH. split.
      * intros H. constructor; eauto.
      * now inversion 1.
    + split; [discriminate|]. inversion 1 as [|? ? [y Hy]]. congruence.
Qed.

Lemma generate_code_fresh (draws : list nat)
    (codes : gmap string TransferInfo) (code : string) :
  generate_code draws codes = Some code ->
  codes !! code = None /\ valid_code code.
Proof.
  intros H. apply generate_code_Some in H as (_ & raw & _ & _ & -> & Hn & _).
  split; [exact Hn | apply draw_code_valid].
Qed.

(** When every valid code is a key, the loop never breaks. *)
Lemma generate_code_full (codes : gmap string TransferInfo) :
  (forall n : Z, 1000 <= n <= 9999 -> is_Some (codes !! pretty n)) ->
  forall draws, generate_code draws codes = None.
Proof.
  intros Hfull draws. apply generate_code_None, Forall_forall.
  intros raw _. destruct (draw_code_valid raw) as (n & Hn & ->). auto.
Qed.

(** What [create_transfer_code] does once the loop has broken. *)
Lemma create_transfer_code_inv (draws : list nat) (uuid4 : string)
    (now : datetime) (f : UploadedFile) (fm fm' : FileManager) (d d' : Disk)
    (r : outcome string) :
  create_transfer_code draws uuid4 now f fm d = Some (r, fm', d') ->
  exists code,
    generate_code draws (transfer_codes fm) = Some code /\
    ((exists msg, r = Raised msg /\ fm' = fm /\ d' = d) \/
     (exists info,
        r = Returned code /\
        fm' = set_transfer_codes (<[code := info]> (transfer_codes fm)) fm /\
        ti_original_name info = uf_name f /\
        ti_expires_at info = now + timedelta_hours 24 /\
        ti_downloaded info = false /\
        write_file d (ti_file_path info) (uf_value f) now = Some d')).
Proof.
  unfold create_transfer_code.
  destruct (generate_code draws (transfer_codes fm)) as [code|]; [|discriminate].
  intros H. exists code. split; [reflexivity|].
  destruct (write_file d _ (uf_value f) now) as [d1|] eqn:Hw.
  - injection H as <- <- <-. right. eexists. repeat split; simpl; eauto.
  - injection H as <- <- <-. left. eauto.
Qed.

Lemma create_transfer_code_diverges (draws : list nat) (uuid4 : string)
    (now : datetime) (f : UploadedFile) (fm : FileManager) (d : Disk) :
  create_transfer_code draws uuid4 now f fm d = None <->
  generate_code draws (transfer_codes fm) = None.
Proof.
  unfold create_transfer_code.
  destruct (generate_code draws (transfer_codes fm)); [|tauto].
  destruct (write_file d _ (uf_value f) now); split; discriminate.
Qed.

(** ** The disk only loses files during the sweeps *)

Lemma disk_shrinks_refl (d : Disk) : disk_shrinks d d.
Proof. split; [reflexivity | split; reflexivity]. Qed.

Lemma disk_shrinks_trans (d1 d2 d3 : Disk) :
  disk_shrinks d1 d2 -> disk_shrinks d2 d3 -> disk_shrinks d1 d3.
Proof.
  intros (H1 & H2 & H3) (K1 & K2 & K3). repeat split.
  - now transitivity (d_files d2).
  - congruence.
  - congruence.
Qed.

Lemma disk_shrinks_absent (d d' : Disk) (p : string) :
  disk_shrinks d d' -> d_files d !! p = None -> d_files d' !! p = None.
Proof. intros (H & _) Hp. eapply lookup_weaken_None; eauto. Qed.

Lemma os_remove_Some (d d' : Disk) (p : string) :
  os_remove d p = Some d' ->
  d' = set_files (delete p (d_files d)) d /\ (p ∉ d_protected d) /\
  is_Some (d_files d !! p).
Proof.
  unfold os_remove. destruct (d_files d !! p) as [f|]; [|discriminate].
  case_bool_decide; [discriminate|]. intros [= <-]. eauto.
Qed.

Lemma os_remove_shrinks (d d' : Disk) (p : string) :
  os_remove d p = Some d' -> disk_shrinks d d'.
Proof.
  intros H. apply os_remove_Some in H as (-> & _ & _).
  repeat split. simpl. apply delete_subseteq.
Qed.

Lemma remove_if_exists_shrinks (d : Disk) (p : string) :
  disk_shrinks d (remove_if_exists d p).
Proof.
  unfold remove_if_exists. destruct (os_path_exists d p).
  - destruct (os_remove d p) eqn:H; [|apply disk_shrinks_refl].
    eapply os_remove_shrinks; eauto.
  - apply disk_shrinks_refl.
Qed.

Lemma remove_if_exists_gone (d : Disk) (p : string) :
  p ∉ d_protected d -> d_files (remove_if_exists d p) !! p = None.
Proof.
  intros Hp. unfold remove_if_exists, os_path_exists, os_remove.
  destruct (d_files d !! p) as [f|] eqn:Hf.
  - rewrite bool_decide_eq_true_2 by eauto. simpl.
    rewrite bool_decide_eq_false_2 by assumption.
    simpl. apply lookup_delete_eq.
  - destruct (_ || _); assumption.
Qed.

Lemma orphan_step_shrinks (now : datetime) (dir : string)
    (paths : gset string) (window : Z) (d : Disk) (name : string) :
  disk_shrinks d (orphan_step now dir paths window d name).
Proof.
  unfold orphan_step. case_bool_decide; [apply disk_shrinks_refl|].
  destruct (os_path_getmtime d _); [|apply disk_shrinks_refl].
  destruct (_ <? _); [|apply disk_shrinks_refl].
  destruct (os_remove d _) eqn:Hr; [|apply disk_shrinks_refl].
  eapply os_remove_shrinks; eauto.
Qed.

Lemma foldl_shrinks {A : Type} (f : Disk -> A -> Disk) (l : list A) :
  (forall d x, disk_shrinks d (f d x)) ->
  forall d, disk_shrinks d (foldl f d l).
Proof.
  intros Hf. induction l as [|x l IH]; intros d; simpl.
  - apply disk_shrinks_refl.
  - eapply disk_shrinks_trans; [apply Hf | apply IH].
Qed.

Lemma cleanup_orphaned_files_shrinks (now : datetime) (fm : FileManager)
    (d : Disk) :
  disk_shrinks d (_cleanup_orphaned_files now fm d).
Proof.
  unfold _cleanup_orphaned_files.
  destruct (negb _); [apply disk_shrinks_refl|].
  destruct (os_listdir d _); [|apply disk_shrinks_refl].
  apply foldl_shrinks. intros. apply orphan_step_shrinks.
Qed.

(** ** The sweep of the registry *)

Lemma expired_files_elem (now : datetime) (reg : gmap string FileInfo)
    (file_id : string) :
  file_id ∈ expired_files now reg <->
  exists info, reg !! file_id = Some info /\ fi_expires_at info < now.
Proof.
  unfold expired_files. rewrite list_elem_of_fmap. split.
  - intros ([k info] & -> & Hin). apply list_elem_of_filter in Hin as [Hexp Hin].
    apply elem_of_map_to_list in Hin. eauto.
  - intros (info & Hk & Hexp). exists (file_id, info). split; [reflexivity|].
    apply list_elem_of_filter. split; [exact Hexp|].
    now apply elem_of_map_to_list.
Qed.

Lemma expired_files_NoDup (now : datetime) (reg : gmap string FileInfo) :
  NoDup (expired_files now reg).
Proof.
  unfold expired_files.
  eapply sublist_NoDup; [apply (NoDup_fst_map_to_list reg)|].
  apply fmap_sublist, sublist_filter.
Qed.

(** The second loop runs to its end on a duplicate-free list of keys: it
    deletes exactly these keys, and the file of each of them unless the
    path is protected. *)
Lemma remove_expired_spec (ids : list string) :
  forall (fm : FileManager) (d : Disk),
    NoDup ids ->
    (forall file_id, file_id ∈ ids -> is_Some (file_registry fm !! file_id)) ->
    exists reg' d',
      remove_expired ids fm d = (true, set_file_registry reg' fm, d') /\
      (forall k, reg' !! k =
                 if decide (k ∈ ids) then None else file_registry fm !! k) /\
      disk_shrinks d d' /\
      (forall file_id info,
          file_id ∈ ids -> file_registry fm !! file_id = Some info ->
          fi_path info ∉ d_protected d ->
          d_files d' !! fi_path info = None).
Proof.
  induction ids as [|file_id ids IH]; intros fm d Hnd Hkeys.
  - exists (file_registry fm), d. split; [destruct fm; reflexivity|].
    split; [|split]; [| apply disk_shrinks_refl |].
    + intros k. destruct (decide (k ∈ [])) as [Hk|_]; [|reflexivity].
      now apply elem_of_nil in Hk.
    + intros ? ? Hin. now apply elem_of_nil in Hin.
  - apply NoDup_cons in Hnd as [Hnotin Hnd].
    destruct (Hkeys file_id) as [info Hinfo]; [left|].
    simpl. rewrite Hinfo.
    set (fm1 := set_file_registry (delete file_id (file_registry fm)) fm).
    set (d1 := remove_if_exists d (fi_path info)).
    destruct (IH fm1 d1 Hnd) as (reg' & d' & Heq & Hreg & Hsh & Hgone).
    { intros k Hk. simpl. rewrite lookup_delete_ne; [|congruence].
      apply Hkeys. now right. }
    pose proof (remove_if_exists_shrinks d (fi_path info)) as Hsh1.
    exists reg', d'. split; [exact Heq|].
    split; [|split].
    + intros k. rewrite Hreg. simpl.
      destruct (decide (k = file_id)) as [->|Hne].
      * rewrite lookup_delete_eq.
        rewrite (decide_True (P := file_id ∈ file_id :: ids)) by left.
        now destruct (decide (file_id ∈ ids)).
      * rewrite lookup_delete_ne by congruence.
        destruct (decide (k ∈ ids)) as [Hk|Hk].
        -- rewrite decide_True; [reflexivity | now right].
        -- rewrite decide_False; [reflexivity|].
           intros Hin. apply elem_of_cons in Hin as [?|?]; contradiction.
    + eapply disk_shrinks_trans; eauto.
    + intros k info' Hin Hk Hprot.
      apply elem_of_cons in Hin as [->|Hin].
      * assert (info' = info) as -> by congruence.
        eapply disk_shrinks_absent; [exact Hsh|].
        now apply remove_if_exists_gone.
      * apply (Hgone k info' Hin).
        -- simpl. rewrite lookup_delete_ne; [exact Hk|]. congruence.
        -- subst d1. destruct Hsh1 as (_ & _ & ->). exact Hprot.
Qed.

(** The registry after [cleanup_expired_files]: the entries whose expiry
    is not strictly before [now]; nothing else of the object changes. *)
Lemma cleanup_expired_files_fm (now : datetime) (fm : FileManager) (d : Disk) :
  (cleanup_expired_files now fm d).1 =
  set_file_registry
    (filter (fun kv => ~ fi_expires_at kv.2 < now) (file_registry fm)) fm.
Proof.
  unfold cleanup_expired_files.
  destruct (remove_expired_spec (expired_files now (file_registry fm)) fm d)
    as (reg' & d' & -> & Hreg & _).
  { apply expired_files_NoDup. }
  { intros k Hk. apply expired_files_elem in Hk as (info & -> & _). eauto. }
  simpl. f_equal. apply map_eq. intros k. rewrite Hreg.
  destruct (decide (k ∈ expired_files now (file_registry fm))) as [Hk|Hk].
  - apply expired_files_elem in Hk as (info & Hinfo & Hexp).
    symmetry. apply map_lookup_filter_None. right.
    intros x Hx. simpl. assert (x = info) as -> by congruence. lia.
  - destruct (file_registry fm !! k) as [info|] eqn:Hinfo.
    + symmetry. apply map_lookup_filter_Some. split; [exact Hinfo|].
      simpl. intros Hexp. apply Hk, expired_files_elem. eauto.
    + symmetry. apply map_lookup_filter_None. now left.
Qed.

Lemma cleanup_expired_files_disk (now : datetime) (fm : FileManager)
    (d : Disk) :
  disk_shrinks d (cleanup_expired_files now fm d).2 /\
  (forall file_id info,
      file_registry fm !! file_id = Some info -> fi_expires_at info < now ->
      fi_path info ∉ d_protected d ->
      d_files (cleanup_expired_files now fm d).2 !! fi_path info = None).
Proof.
  unfold cleanup_expired_files.
  destruct (remove_expired_spec (expired_files now (file_registry fm)) fm d)
    as (reg' & d' & -> & _ & Hsh & Hgone).
  { apply expired_files_NoDup. }
  { intros k Hk. apply expired_files_elem in Hk as (info & -> & _). eauto. }
  simpl.
  pose proof (cleanup_orphaned_files_shrinks now
                (set_file_registry reg' fm) d') as Hsh2.
  split; [eapply disk_shrinks_trans; eauto|].
  intros k info Hk Hexp Hprot.
  eapply disk_shrinks_absent; [exact Hsh2|].
  apply (Hgone k info); auto. apply expired_files_elem. eauto.
Qed.

(** ** Which calls write [transfer_codes] *)

Lemma save_uploaded_file_codes uuid4 now f is_admin fm d :
  transfer_codes (save_uploaded_file uuid4 now f is_admin fm d).1.2 =
  transfer_codes fm.
Proof.
  unfold save_uploaded_file. now destruct (write_file d _ (uf_value f) now).
Qed.

Lemma save_processed_file_codes uuid4 now src name fm d :
  transfer_codes (save_processed_file uuid4 now src name fm d).1.2 =
  transfer_codes fm.
Proof.
  unfold save_processed_file.
  destruct (shutil_copy2 d src _) as [d'|]; [|reflexivity].
  now destruct (d_files d' !! _).
Qed.

Lemma create_download_link_codes uuid4 now src name fm d :
  transfer_codes (create_download_link uuid4 now src name fm d).1.2 =
  transfer_codes fm.
Proof.
  unfold create_download_link.
  pose proof (save_processed_file_codes uuid4 now src name fm d) as H.
  destruct (save_processed_file uuid4 now src name fm d) as [[[p|msg] fm'] d'];
    exact H.
Qed.

Lemma cleanup_expired_files_codes now fm d :
  transfer_codes (cleanup_expired_files now fm d).1 = transfer_codes fm.
Proof. now rewrite cleanup_expired_files_fm. Qed.

Lemma force_cleanup_all_codes fm d :
  transfer_codes (force_cleanup_all fm d).1 = transfer_codes fm.
Proof.
  unfold force_cleanup_all. destruct (os_path_exists _ _); [|reflexivity].
  now destruct (os_listdir _ _).
Qed.

Lemma delete_file_codes file_id fm d :
  transfer_codes (delete_file file_id fm d).1.2 = transfer_codes fm.
Proof.
  unfold delete_file. destruct (file_registry fm !! file_id); [|reflexivity].
  destruct (os_path_exists d _); [|reflexivity].
  now destruct (os_remove d _).
Qed.

Lemma download_by_code_codes code now fm d :
  transfer_codes (download_by_code code now fm d).1.2 = transfer_codes fm \/
  exists info,
    transfer_codes fm !! code = Some info /\
    transfer_codes (download_by_code code now fm d).1.2 =
    <[code := set_downloaded true info]> (transfer_codes fm).
Proof.
  unfold download_by_code.
  destruct (transfer_codes fm !! code) as [info|] eqn:Hc; [|now left].
  destruct (_ <? _); [now left|].
  destruct (negb _); [now left|].
  destruct (read_file d _); [|now left].
  right. exists info. split; reflexivity.
Qed.

(** One call either leaves [transfer_codes] alone, or is a
    [create_transfer_code] that returns a valid code that was not a key and
    adds it, or is a [download_by_code] that sets the flag of its record. *)
Lemma exec_codes (now : datetime) (o : op) (st st' : State) (r : result) :
  exec now o st = Some (r, st') ->
  (transfer_codes st'.1 = transfer_codes st.1 /\ issued [(now, o, r)] = []) \/
  (exists code info,
      issued [(now, o, r)] = [code] /\
      transfer_codes st.1 !! code = None /\ valid_code code /\
      transfer_codes st'.1 = <[code := info]> (transfer_codes st.1)) \/
  (exists code info,
      issued [(now, o, r)] = [] /\
      transfer_codes st.1 !! code = Some info /\
      transfer_codes st'.1 =
      <[code := set_downloaded true info]> (transfer_codes st.1)).
Proof.
  destruct st as [fm d]. destruct o; simpl.
  - pose proof (save_uploaded_file_codes uuid4 now f is_admin fm d) as H.
    destruct (save_uploaded_file _ _ _ _ _ _) as [[x fm'] d'].
    intros [= <- <-]. now left.
  - pose proof (save_processed_file_codes uuid4 now source_path output_name
                  fm d) as H.
    destruct (save_processed_file _ _ _ _ _ _) as [[x fm'] d'].
    intros [= <- <-]. now left.
  - pose proof (create_download_link_codes uuid4 now file_path download_name
                  fm d) as H.
    destruct (create_download_link _ _ _ _ _ _) as [[x fm'] d'].
    intros [= <- <-]. now left.
  - intros [= <- <-]. left. split; [apply cleanup_expired_files_codes|easy].
  - intros [= <- <-]. now left.
  - intros [= <- <-]. now left.
  - intros [= <- <-]. left. split; [apply force_cleanup_all_codes|easy].
  - pose proof (delete_file_codes file_id fm d) as H.
    destruct (delete_file _ _ _) as [[x fm'] d'].
    intros [= <- <-]. now left.
  - destruct (create_transfer_code draws uuid4 now f fm d)
      as [[[x fm'] d']|] eqn:Hc; [|discriminate].
    intros [= <- <-].
    apply create_transfer_code_inv in Hc as (code & Hg & Hc).
    apply generate_code_fresh in Hg as [Hfree Hvalid].
    destruct Hc as [(msg & -> & -> & ->)|(info & -> & -> & _)].
    + now left.
    + right. left. exists code, info. simpl. auto.
  - intros [= <- <-]. now left.
  - pose proof (download_by_code_codes code now fm d) as H.
    destruct (download_by_code _ _ _ _) as [[x fm'] d'].
    intros [= <- <-]. simpl in *.
    destruct H as [H|(info & Hc & H)]; [now left|].
    right. right. exists code, info. auto.
  - intros [= <- <-]. now left.
Qed.

Lemma issued_cons (e : datetime * op * result)
    (tr : list (datetime * op * result)) :
  issued (e :: tr) = issued [e] ++ issued tr.
Proof.
  destruct e as [[now o] r].
  destruct o; try reflexivity. destruct r as [| [code|msg] | | | | | |];
    reflexivity.
Qed.

(** Along a run: the codes returned are pairwise different valid codes,
    none was a key at the start, the keys at the end are those of the start
    and the codes returned, and a record of the start is still there, up to
    its flag. *)
Lemma steps_codes (st st' : State) (tr : list (datetime * op * result)) :
  steps st tr st' ->
  NoDup (issued tr) /\
  (forall code, code ∈ issued tr ->
                transfer_codes st.1 !! code = None /\ valid_code code) /\
  dom (transfer_codes st'.1) =
  dom (transfer_codes st.1) ∪ list_to_set (issued tr) /\
  (forall code info,
      transfer_codes st.1 !! code = Some info ->
      exists b, transfer_codes st'.1 !! code = Some (set_downloaded b info)).
Proof.
  induction 1 as [st|st now o r st1 tr st' Hexec Hsteps IH].
  - simpl. split; [constructor|]. split; [|split].
    + intros code Hin. now apply elem_of_nil in Hin.
    + set_solver.
    + intros code info Hc. exists (ti_downloaded info).
      rewrite Hc. now destruct info.
  - destruct IH as (Hnd & Hfresh & Hdom & Hkeep).
    rewrite issued_cons.
    apply exec_codes in Hexec
      as [[Heq ->]|[(c & i & -> & Hc & Hv & Heq)|(c & i & -> & Hc & Heq)]].
    + rewrite Heq in *. simpl. auto.
    + rewrite Heq in *. simpl. split; [|split; [|split]].
      * apply NoDup_cons. split; [|exact Hnd].
        intros Hin. destruct (Hfresh c Hin) as [Hn _].
        rewrite lookup_insert_eq in Hn. discriminate.
      * intros code Hin. apply elem_of_cons in Hin as [->|Hin]; [auto|].
        destruct (Hfresh code Hin) as [Hn Hvc]. split; [|exact Hvc].
        destruct (decide (c = code)) as [->|Hne].
        -- rewrite lookup_insert_eq in Hn. discriminate.
        -- now rewrite lookup_insert_ne in Hn.
      * rewrite Hdom, dom_insert_L. set_solver.
      * intros code info Hcode. apply Hkeep.
        rewrite lookup_insert_ne; [exact Hcode|]. congruence.
    + rewrite Heq in *. simpl. split; [exact Hnd|]. split; [|split].
      * intros code Hin. destruct (Hfresh code Hin) as [Hn Hvc].
        split; [|exact Hvc].
        destruct (decide (c = code)) as [->|Hne].
        -- rewrite lookup_insert_eq in Hn. discriminate.
        -- now rewrite lookup_insert_ne in Hn.
      * rewrite Hdom, dom_insert_L.
        assert (c ∈ dom (transfer_codes st.1)) by (apply elem_of_dom; eauto).
        set_solver.
      * intros code info Hcode.
        destruct (decide (c = code)) as [->|Hne].
        -- assert (info = i) as -> by congruence.
           destruct (Hkeep code (set_downloaded true i)) as [b Hb].
           { apply lookup_insert_eq. }
           exists b. rewrite Hb. reflexivity.
        -- apply Hkeep. now rewrite lookup_insert_ne.
Qed.

(** ** The valid codes, listed *)

Lemma valid_code_all_codes (code : string) :
  valid_code code <-> code ∈ all_codes.
Proof.
  unfold valid_code, all_codes. rewrite list_elem_of_fmap. split.
  - intros (n & Hn & ->). exists (Z.to_nat (n - 1000)). split.
    + f_equal. lia.
    + apply list_elem_of_In, in_seq. lia.
  - intros (k & -> & Hk). apply list_elem_of_In, in_seq in Hk.
    exists (1000 + Z.of_nat k). split; [lia | reflexivity].
Qed.

Lemma all_codes_NoDup : NoDup all_codes.
Proof.
  unfold all_codes. apply NoDup_fmap_2; [|apply NoDup_seq].
  intros x y Hxy. apply (inj pretty) in Hxy. lia.
Qed.

Lemma all_codes_length : length all_codes = Z.to_nat 9000.
Proof. unfold all_codes. now rewrite length_fmap, length_seq. Qed.

(** On the valid codes the decimal writing is the four-digit writing. *)
Lemma pretty_N_char_digit (k : N) :
  (k < 10)%N -> pretty_N_char k = digit_char (Z.of_N k).
Proof.
  intros Hk.
  assert (k = 0 \/ k = 1 \/ k = 2 \/ k = 3 \/ k = 4 \/ k = 5 \/ k = 6 \/
          k = 7 \/ k = 8 \/ k = 9)%N as Hcases by lia.
  repeat (destruct Hcases as [->|Hcases]; [reflexivity|]). now subst.
Qed.

Lemma pretty_four_digits (n : Z) :
  1000 <= n <= 9999 -> pretty n = four_digits n.
Proof.
  intros Hn. destruct n as [|p|p]; try lia.
  change (pretty (Z.pos p)) with (pretty (N.pos p)).
  change (Z.pos p) with (Z.of_N (N.pos p)) in *.
  generalize dependent (N.pos p). intros x Hx.
  unfold pretty, pretty_N. rewrite decide_False by lia.
  assert ((x / 10) / 10 = x / 100)%N as H2
    by (now rewrite N.Div0.div_div).
  assert ((x / 100) / 10 = x / 1000)%N as H3
    by (now rewrite N.Div0.div_div).
  assert ((x / 1000) / 10 = 0)%N as H4
    by (rewrite N.Div0.div_div; apply N.div_small; lia).
  rewrite pretty_N_go_step by lia.
  rewrite pretty_N_go_step by (apply N.div_str_pos; lia).
  rewrite H2.
  rewrite pretty_N_go_step by (apply N.div_str_pos; lia).
  rewrite H3.
  rewrite pretty_N_go_step by (apply N.div_str_pos; lia).
  rewrite H4, pretty_N_go_0.
  unfold four_digits.
  rewrite !pretty_N_char_digit by (apply N.mod_lt; lia).
  rewrite !N2Z.inj_mod, !N2Z.inj_div. reflexivity.
Qed.

Lemma valid_code_no_leading_zero (rest : string) :
  ~ valid_code (String "0" rest).
Proof.
  intros (n & Hn & Heq). rewrite (pretty_four_digits n Hn) in Heq.
  unfold four_digits in Heq. injection Heq as Hd _.
  pose proof (Z.div_mod n 1000) as Hdiv.
  pose proof (Z.mod_pos_bound n 1000) as Hrem.
  assert (1 <= n / 1000 <= 9) as Hq by lia.
  assert (n / 1000 mod 10 = n / 1000) as Hm by (apply Z.mod_small; lia).
  rewrite Hm in Hd.
  assert (n / 1000 = 1 \/ n / 1000 = 2 \/ n / 1000 = 3 \/ n / 1000 = 4 \/
          n / 1000 = 5 \/ n / 1000 = 6 \/ n / 1000 = 7 \/ n / 1000 = 8 \/
          n / 1000 = 9) as Hcases by lia.
  repeat (destruct Hcases as [Hc|Hcases];
          [rewrite Hc in Hd; discriminate|]).
  rewrite Hcases in Hd. discriminate.
Qed.

Lemma four_digits_leading_zero (n : Z) :
  0 <= n < 1000 -> exists rest, four_digits n = String "0" rest.
Proof.
  intros Hn. unfold four_digits. rewrite (Z.div_small n 1000) by lia.
  eexists. reflexivity.
Qed.

Lemma keyed_lookup (l : list string) (v : TransferInfo) (k : string) :
  k ∈ l ->
  is_Some ((list_to_map ((fun c => (c, v)) <$> l) : gmap string TransferInfo)
             !! k).
Proof.
  intros Hin.
  destruct (list_to_map _ !! k) as [x|] eqn:Hl; [eauto|].
  apply not_elem_of_list_to_map in Hl. exfalso. apply Hl.
  rewrite <- list_fmap_compose.
  apply list_elem_of_fmap. exists k. split; [reflexivity|exact Hin].
Qed.

Lemma full_codes_full (n : Z) :
  1000 <= n <= 9999 -> is_Some (transfer_codes fm_full !! pretty n).
Proof.
  intros Hn.
  assert (pretty n ∈ all_codes) as Hin
    by (apply valid_code_all_codes; exists n; auto).
  exact (keyed_lookup all_codes old_transfer (pretty n) Hin).
Qed.

(** * The claims *)

(** ** C1: termination of [create_transfer_code] *)

(** C1, as stated, fails.  In [fm_full] every code from 1000 to 9999 has a
    record, and [create_transfer_code] returns nothing at all there: for no
    sequence of draws, however long, does the call come back, neither with
    a code nor with an error. *)
Lemma create_transfer_code_hangs_when_full :
  (forall n : Z,
      1000 <= n <= 9999 -> is_Some (transfer_codes fm_full !! pretty n)) /\
  ~ (exists draws uuid4 now f d,
        is_Some (create_transfer_code draws uuid4 now f fm_full d)).
Proof.
  split; [exact full_codes_full|].
  intros (draws & uuid4 & now & f & d & [x Hx]).
  assert (create_transfer_code draws uuid4 now f fm_full d = None) as Hn.
  { apply create_transfer_code_diverges, generate_code_full, full_codes_full. }
  congruence.
Qed.

(** C1, amended.  [create_transfer_code] has no bound on its attempts and
    no capacity error.  It has not returned after a sequence of draws
    exactly when every code drawn so far has a record; when it returns, it
    does so at the first draw whose code has no record, with that code
    (or with the error of the file write); and when every code from 1000 to
    9999 has a record it never returns. *)
Theorem create_transfer_code_retries_until_free
    (draws : list nat) (uuid4 : string) (now : datetime) (f : UploadedFile)
    (fm : FileManager) (d : Disk) :
  (create_transfer_code draws uuid4 now f fm d = None <->
   Forall (fun raw => is_Some (transfer_codes fm !! draw_code raw)) draws) /\
  (forall r fm' d',
      create_transfer_code draws uuid4 now f fm d = Some (r, fm', d') ->
      exists pre raw post,
        draws = pre ++ raw :: post /\
        Forall (fun x => is_Some (transfer_codes fm !! draw_code x)) pre /\
        transfer_codes fm !! draw_code raw = None /\
        valid_code (draw_code raw) /\
        (r = Returned (draw_code raw) \/ exists msg, r = Raised msg)) /\
  ((forall n : Z,
       1000 <= n <= 9999 -> is_Some (transfer_codes fm !! pretty n)) ->
   create_transfer_code draws uuid4 now f fm d = None).
Proof.
  split; [|split].
  - rewrite create_transfer_code_diverges. apply generate_code_None.
  - intros r fm' d' Hc.
    apply create_transfer_code_inv in Hc as (code & Hg & Hc).
    apply generate_code_Some in Hg
      as (pre & raw & post & -> & -> & Hfree & Hpre).
    exists pre, raw, post. repeat split; auto using draw_code_valid.
    destruct Hc as [(msg & -> & _)|(info & -> & _)]; eauto.
  - intros Hfull. apply create_transfer_code_diverges.
    now apply generate_code_full.
Qed.

(** In [fm_full] the call has not returned after three draws. *)
Lemma create_transfer_code_retries_until_free_witness :
  create_transfer_code [0%nat; 1%nat; 2%nat] "u9" 0 a_pdf fm_full empty_disk
  = None.
Proof.
  apply (proj2 (proj2 (create_transfer_code_retries_until_free
                         [0%nat; 1%nat; 2%nat] "u9" 0 a_pdf fm_full
                         empty_disk))).
  exact full_codes_full.
Defined.

Lemma steps_run_two : steps fresh run_two sent_twice.
Proof.
  apply (steps_cons fresh 0 _ _ sent); [vm_compute; reflexivity|].
  apply (steps_cons sent 0 _ _ sent_twice); [vm_compute; reflexivity|].
  apply steps_nil.
Defined.

(** ** C6: the codes in use are pairwise different *)

(** C6.  A call of [create_transfer_code] that returns [code] found no
    record under [code], stores its record there and leaves every other
    record as it was.  Hence, along every run from every state, the codes
    returned are pairwise different and different from the codes already
    in use, the keys of the map are exactly the old keys and the codes
    returned, and the map grows by one record for each code returned: no
    record is ever shared by two transfers. *)
Theorem issued_codes_never_collide :
  (forall draws uuid4 now f fm d code fm' d',
      create_transfer_code draws uuid4 now f fm d
      = Some (Returned code, fm', d') ->
      transfer_codes fm !! code = None /\
      is_Some (transfer_codes fm' !! code) /\
      (forall c, c <> code ->
                 transfer_codes fm' !! c = transfer_codes fm !! c)) /\
  (forall st tr st',
      steps st tr st' ->
      NoDup (issued tr) /\
      (forall code, code ∈ issued tr -> transfer_codes st.1 !! code = None) /\
      dom (transfer_codes st'.1) =
      dom (transfer_codes st.1) ∪ list_to_set (issued tr) /\
      size (transfer_codes st'.1) =
      (size (transfer_codes st.1) + length (issued tr))%nat).
Proof.
  split.
  - intros draws uuid4 now f fm d code fm' d' Hc.
    apply create_transfer_code_inv in Hc as (code' & Hg & Hc).
    apply generate_code_fresh in Hg as [Hfree _].
    destruct Hc as [(msg & [=] & _)|(info & [= ->] & -> & _)].
    simpl. split; [exact Hfree|]. split.
    + rewrite lookup_insert_eq. eauto.
    + intros c Hne. apply lookup_insert_ne. congruence.
  - intros st tr st' Hsteps.
    destruct (steps_codes st st' tr Hsteps) as (Hnd & Hfresh & Hdom & _).
    split; [exact Hnd|]. split; [intros c Hc; apply Hfresh, Hc|].
    split; [exact Hdom|].
    rewrite <- (size_dom (transfer_codes st'.1)), Hdom.
    rewrite size_union.
    + now rewrite size_dom, size_list_to_set.
    + intros c Hc1 Hc2. apply elem_of_list_to_set in Hc2.
      apply elem_of_dom in Hc1 as [x Hx].
      destruct (Hfresh c Hc2) as [Hn _]. congruence.
Qed.

(** The run [run_two]: the second call skips the code of the first. *)
Lemma issued_codes_never_collide_witness :
  NoDup (issued run_two) /\
  (forall code, code ∈ issued run_two ->
                transfer_codes fresh.1 !! code = None) /\
  dom (transfer_codes sent_twice.1) =
  dom (transfer_codes fresh.1) ∪ list_to_set (issued run_two) /\
  size (transfer_codes sent_twice.1) =
  (size (transfer_codes fresh.1) + length (issued run_two))%nat.
Proof.
  exact (proj2 issued_codes_never_collide fresh run_two sent_twice
           steps_run_two).
Defined.

(** ** C7: no sweep of the transfer records *)

(** C7, as stated, fails.  The record under ["1234"] expires 24 hours after
    its creation; the sweep run one hour later leaves it where it is, and a
    new call that draws 1234 again has to draw a second time. *)
Lemma expired_code_survives_cleanup :
  ti_expires_at <$> get_file_by_code "1234" sent.1
  = Some (timedelta_hours 24) /\
  get_file_by_code "1234"
    (cleanup_expired_files (timedelta_hours 25) sent.1 sent.2).1
  = get_file_by_code "1234" sent.1 /\
  (fun r => r.1.1) <$>
    create_transfer_code [234%nat; 4321%nat] "u2" (timedelta_hours 25) a_pdf
      (cleanup_expired_files (timedelta_hours 25) sent.1 sent.2).1
      (cleanup_expired_files (timedelta_hours 25) sent.1 sent.2).2
  = Some (Returned "5321").
Proof.
  split; [|split].
  - vm_compute. reflexivity.
  - rewrite cleanup_expired_files_fm. reflexivity.
  - vm_compute. reflexivity.
Qed.

(** C7, amended.  The class has one sweep, [cleanup_expired_files]; it
    returns no count and leaves [transfer_codes] as it is.  No call removes
    a transfer record: a code that has a record keeps one in every later
    state, whether expired or not, and is never returned again by
    [create_transfer_code]. *)
Theorem transfer_codes_never_purged :
  (forall now fm d,
      transfer_codes (cleanup_expired_files now fm d).1 = transfer_codes fm) /\
  (forall st tr st' code,
      steps st tr st' ->
      is_Some (transfer_codes st.1 !! code) ->
      is_Some (transfer_codes st'.1 !! code) /\ code ∉ issued tr).
Proof.
  split; [exact cleanup_expired_files_codes|].
  intros st tr st' code Hsteps [info Hinfo].
  destruct (steps_codes st st' tr Hsteps) as (_ & Hfresh & _ & Hkeep).
  split.
  - destruct (Hkeep code info Hinfo) as [b Hb]. eauto.
  - intros Hin. destruct (Hfresh code Hin) as [Hn _]. congruence.
Qed.

(** The record of ["1234"] outlives the second call of [run_two]. *)
Lemma transfer_codes_never_purged_witness :
  is_Some (transfer_codes sent_twice.1 !! "1234") /\
  "1234" ∉ issued (tail run_two).
Proof.
  apply (proj2 transfer_codes_never_purged sent (tail run_two) sent_twice).
  - apply (steps_cons sent 0 _ _ sent_twice); [vm_compute; reflexivity|].
    apply steps_nil.
  - vm_compute. eauto.
Defined.

(** ** C9: only the codes from 1000 to 9999 are in use *)

Lemma fresh_reachable : reachable fresh.
Proof. exists "/tmp", empty_disk, []. apply steps_nil. Defined.

Lemma sent_reachable : reachable sent.
Proof.
  exists "/tmp", empty_disk, [hd (0, GetAllFiles, RNone) run_two].
  apply (steps_cons fresh 0 _ _ sent); [vm_compute; reflexivity|].
  apply steps_nil.
Defined.

Lemma reachable_codes_valid (st : State) (code : string) :
  reachable st -> is_Some (transfer_codes st.1 !! code) -> valid_code code.
Proof.
  intros (tmp & d0 & tr & Hsteps) Hcode.
  destruct (steps_codes _ _ _ Hsteps) as (_ & Hfresh & Hdom & _).
  apply elem_of_dom in Hcode. rewrite Hdom in Hcode. simpl in Hcode.
  rewrite dom_empty_L in Hcode.
  apply elem_of_union in Hcode as [Hcode|Hcode].
  - now apply not_elem_of_empty in Hcode.
  - apply elem_of_list_to_set in Hcode. now apply Hfresh.
Qed.

(** C9.  Every code that [create_transfer_code] returns is the decimal
    writing of an integer from 1000 to 9999.  In every state that the
    application reaches, every code with a record is of this kind, so there
    are at most 9000 records, and a look-up of a code below 1000, written
    with four digits (["0000"] to ["0999"]) or without leading zeros, finds
    nothing. *)
Theorem codes_between_1000_and_9999 (st : State) :
  reachable st ->
  (forall now draws uuid4 f code st',
      exec now (CreateTransferCode draws uuid4 f) st
      = Some (RCode (Returned code), st') -> valid_code code) /\
  (forall code, is_Some (get_file_by_code code st.1) -> valid_code code) /\
  Z.of_nat (size (transfer_codes st.1)) <= 9000 /\
  (forall n, 0 <= n < 1000 ->
             get_file_by_code (four_digits n) st.1 = None /\
             get_file_by_code (pretty n) st.1 = None).
Proof.
  intros Hreach. split; [|split; [|split]].
  - intros now draws uuid4 f code st' Hexec.
    apply exec_codes in Hexec
      as [[_ [=]]|[(c & i & [= ->] & _ & Hv & _)|(c & i & [=] & _)]].
    exact Hv.
  - intros code. apply reachable_codes_valid, Hreach.
  - assert (dom (transfer_codes st.1) ⊆ list_to_set all_codes) as Hsub.
    { intros code Hcode. apply elem_of_list_to_set, valid_code_all_codes.
      apply (reachable_codes_valid st code Hreach). now apply elem_of_dom. }
    apply subseteq_size in Hsub.
    rewrite size_dom, size_list_to_set, all_codes_length in Hsub
      by apply all_codes_NoDup.
    lia.
  - intros n Hn. unfold get_file_by_code. split.
    + destruct (transfer_codes st.1 !! four_digits n) as [x|] eqn:Hx;
        [|reflexivity].
      exfalso. destruct (four_digits_leading_zero n Hn) as [rest Hrest].
      apply (valid_code_no_leading_zero rest). rewrite <- Hrest.
      apply (reachable_codes_valid st _ Hreach). eauto.
    + destruct (transfer_codes st.1 !! pretty n) as [x|] eqn:Hx;
        [|reflexivity].
      exfalso.
      destruct (reachable_codes_valid st (pretty n) Hreach) as (m & Hm & Heq);
        [eauto|].
      apply (inj pretty) in Heq. lia.
Qed.

(** The state [sent], reached by one call. *)
Lemma codes_between_1000_and_9999_witness :
  (forall now draws uuid4 f code st',
      exec now (CreateTransferCode draws uuid4 f) sent
      = Some (RCode (Returned code), st') -> valid_code code) /\
  (forall code, is_Some (get_file_by_code code sent.1) -> valid_code code) /\
  Z.of_nat (size (transfer_codes sent.1)) <= 9000 /\
  (forall n, 0 <= n < 1000 ->
             get_file_by_code (four_digits n) sent.1 = None /\
             get_file_by_code (pretty n) sent.1 = None).
Proof. exact (codes_between_1000_and_9999 sent sent_reachable). Defined.

(** ** C10: [get_file_by_code] only reads *)

(** C10.  A call of [get_file_by_code] returns the record stored under
    the code, whole, or nothing when there is none, and leaves the state
    as it is.  It does not look at the clock: a record whose expiry lies
    before the time of the call is returned all the same, at a time at
    which [download_by_code] refuses the code. *)
Theorem get_file_by_code_reads_only
    (now : datetime) (code : string) (fm : FileManager) (d : Disk) :
  exec now (GetFileByCode code) (fm, d)
  = Some (RTransfer (transfer_codes fm !! code), (fm, d)) /\
  (transfer_codes fm !! code = None -> get_file_by_code code fm = None) /\
  (forall info,
      transfer_codes fm !! code = Some info ->
      get_file_by_code code fm = Some info /\
      (ti_expires_at info < now ->
       (download_by_code code now fm d).1.1 = None)).
Proof.
  split; [reflexivity|]. split; [intros H; exact H|].
  intros info Hinfo. split; [exact Hinfo|].
  intros Hexp. unfold download_by_code. rewrite Hinfo.
  apply Z.ltb_lt in Hexp. now rewrite Hexp.
Qed.

(** The expired record of ["1234"] in [sent], one hour after its expiry. *)
Lemma get_file_by_code_reads_only_witness :
  get_file_by_code "1234" sent.1
  = Some (mkTransferInfo "/tmp/pdf_processor/transfer_u1.pdf" "a.pdf" 0
            (timedelta_hours 24) 4 false) /\
  (timedelta_hours 24 < timedelta_hours 25 ->
   (download_by_code "1234" (timedelta_hours 25) sent.1 sent.2).1.1 = None).
Proof.
  apply (proj2 (proj2 (get_file_by_code_reads_only (timedelta_hours 25)
                         "1234" sent.1 sent.2))).
  vm_compute. reflexivity.
Defined.

(** ** C4: the failures of [download_by_code] *)

(** C4, as stated, fails.  One hour after the expiry of ["1234"], with its
    file still on the disk, [download_by_code] answers the expired code
    ["1234"] and the code ["5678"], which was never issued, in the same
    way. *)
Lemma download_by_code_expired_like_unknown :
  is_Some (get_file_by_code "1234" sent.1) /\
  is_Some (read_file sent.2 "/tmp/pdf_processor/transfer_u1.pdf") /\
  get_file_by_code "5678" sent.1 = None /\
  download_by_code "1234" (timedelta_hours 25) sent.1 sent.2
  = (None, sent.1, sent.2) /\
  download_by_code "5678" (timedelta_hours 25) sent.1 sent.2
  = (None, sent.1, sent.2).
Proof.
  split; [vm_compute; eauto|]. split; [vm_compute; eauto|].
  repeat split; vm_compute; reflexivity.
Qed.

(** C4, amended.  [download_by_code] has one failure result.  For a code
    without a record and for a code whose record has expired it returns
    the same [None] and leaves the state as it is; its result does not
    tell the two apart. *)
Theorem download_by_code_one_failure
    (code : string) (now : datetime) (fm : FileManager) (d : Disk) :
  transfer_codes fm !! code = None \/
  (exists info,
      transfer_codes fm !! code = Some info /\ ti_expires_at info < now) ->
  download_by_code code now fm d = (None, fm, d).
Proof.
  unfold download_by_code. intros [Hnone|(info & Hinfo & Hexp)].
  - now rewrite Hnone.
  - rewrite Hinfo. apply Z.ltb_lt in Hexp. now rewrite Hexp.
Qed.

(** The expired code ["1234"] in [sent]. *)
Lemma download_by_code_one_failure_witness :
  download_by_code "1234" (timedelta_hours 25) sent.1 sent.2
  = (None, sent.1, sent.2).
Proof.
  apply download_by_code_one_failure. right.
  exists (mkTransferInfo "/tmp/pdf_processor/transfer_u1.pdf" "a.pdf" 0
            (timedelta_hours 24) 4 false).
  split; [vm_compute; reflexivity | reflexivity].
Defined.

(** ** The files that the sweep leaves alone *)

Lemma os_remove_other (d d' : Disk) (p q : string) :
  os_remove d p = Some d' -> q <> p -> d_files d' !! q = d_files d !! q.
Proof.
  intros H Hne. apply os_remove_Some in H as (-> & _ & _).
  simpl. apply lookup_delete_ne. congruence.
Qed.

Lemma remove_if_exists_other (d : Disk) (p q : string) :
  q <> p -> d_files (remove_if_exists d p) !! q = d_files d !! q.
Proof.
  intros Hne. unfold remove_if_exists.
  destruct (os_path_exists d p); [|reflexivity].
  destruct (os_remove d p) eqn:Hr; [|reflexivity].
  eapply os_remove_other; eauto.
Qed.

Lemma remove_expired_other (ids : list string) (q : string) :
  forall (fm : FileManager) (d : Disk),
    (forall file_id info,
        file_id ∈ ids -> file_registry fm !! file_id = Some info ->
        fi_path info <> q) ->
    d_files (remove_expired ids fm d).2 !! q = d_files d !! q.
Proof.
  induction ids as [|file_id ids IH]; intros fm d Hq; [reflexivity|].
  simpl. destruct (file_registry fm !! file_id) as [info|] eqn:Hinfo;
    [|reflexivity].
  rewrite IH.
  - apply remove_if_exists_other. intros ->.
    apply (Hq file_id info); [left | exact Hinfo | reflexivity].
  - intros k info' Hk Hlook. simpl in Hlook.
    apply lookup_delete_Some in Hlook as [_ Hlook].
    apply (Hq k info'); [now right | exact Hlook].
Qed.

Lemma orphan_step_other (now : datetime) (dir : string)
    (paths : gset string) (window : Z) (d : Disk) (name q : string) :
  q ∈ paths ->
  d_files (orphan_step now dir paths window d name) !! q = d_files d !! q.
Proof.
  intros Hq. unfold orphan_step. case_bool_decide as Hin; [reflexivity|].
  destruct (os_path_getmtime d _); [|reflexivity].
  destruct (_ <? _); [|reflexivity].
  destruct (os_remove d _) eqn:Hr; [|reflexivity].
  eapply os_remove_other; eauto. intros ->. contradiction.
Qed.

Lemma cleanup_orphaned_files_other (now : datetime) (fm : FileManager)
    (d : Disk) (file_id : string) (info : FileInfo) :
  file_registry fm !! file_id = Some info ->
  d_files (_cleanup_orphaned_files now fm d) !! fi_path info
  = d_files d !! fi_path info.
Proof.
  intros Hinfo. unfold _cleanup_orphaned_files.
  destruct (negb _); [reflexivity|].
  destruct (os_listdir d _) as [names|]; [|reflexivity].
  assert (fi_path info ∈ (map_img (fi_path <$> file_registry fm)
                          : gset string)) as Hin.
  { apply (elem_of_map_img_2 _ file_id). rewrite lookup_fmap, Hinfo.
    reflexivity. }
  revert d. induction names as [|name names IH]; intros d; [reflexivity|].
  simpl. rewrite IH. now apply orphan_step_other.
Qed.

(** ** C3: [get_file_info] and the expiry *)

(** C3, as stated, fails.  The entry ["f1"] expires at the instant 100; a
    call of [get_file_info] at the instant 200 returns it. *)
Lemma get_file_info_returns_expired_entry :
  fi_expires_at info1 < 200 /\
  exec 200 (GetFileInfo "f1") (fm_reg, disk_reg)
  = Some (RInfo (Some info1), (fm_reg, disk_reg)).
Proof.
  split.
  - simpl. lia.
  - vm_compute. reflexivity.
Qed.

(** C3, amended.  [get_file_info] makes no expiry check: it returns the
    entry of the registry whenever the id has one, also after the expiry
    of the entry, and nothing only when the id has no entry.  An expired
    entry stops being returned once [cleanup_expired_files] has run after
    its expiry. *)
Theorem get_file_info_ignores_expiry
    (now : datetime) (file_id : string) (fm : FileManager) (d : Disk) :
  exec now (GetFileInfo file_id) (fm, d)
  = Some (RInfo (file_registry fm !! file_id), (fm, d)) /\
  (get_file_info file_id fm = None <->
   file_id ∉ dom (file_registry fm)) /\
  (forall info,
      file_registry fm !! file_id = Some info ->
      fi_expires_at info < now ->
      get_file_info file_id fm = Some info /\
      get_file_info file_id (cleanup_expired_files now fm d).1 = None).
Proof.
  split; [reflexivity|]. split.
  - unfold get_file_info. now rewrite not_elem_of_dom.
  - intros info Hinfo Hexp. split; [exact Hinfo|].
    rewrite cleanup_expired_files_fm. unfold get_file_info. simpl.
    apply map_lookup_filter_None. right. intros x Hx. simpl.
    assert (x = info) as -> by congruence. lia.
Qed.

(** The entry ["f1"] at the instant 200. *)
Lemma get_file_info_ignores_expiry_witness :
  get_file_info "f1" fm_reg = Some info1 /\
  get_file_info "f1" (cleanup_expired_files 200 fm_reg disk_reg).1 = None.
Proof.
  apply (proj2 (proj2 (get_file_info_ignores_expiry 200 "f1" fm_reg
                         disk_reg))).
  - vm_compute. reflexivity.
  - simpl. lia.
Defined.

(** ** C5: what the sweep removes *)

Lemma expired_files_length (now : datetime) (reg : gmap string FileInfo) :
  length (expired_files now reg)
  = size (filter (fun kv => fi_expires_at kv.2 < now) reg).
Proof.
  unfold expired_files. rewrite length_fmap, map_filter_alt.
  rewrite map_size_list_to_map; [reflexivity|].
  eapply sublist_NoDup; [apply (NoDup_fst_map_to_list reg)|].
  apply fmap_sublist, sublist_filter.
Qed.

(** C5, as stated, fails.  The entry ["f1"] expires at the instant 100; the
    sweep run at the instant 100 keeps the entry and its file. *)
Lemma cleanup_keeps_entry_expiring_now :
  fi_expires_at info1 <= 100 /\
  get_file_info "f1" (cleanup_expired_files 100 fm_reg disk_reg).1
  = Some info1 /\
  is_Some (read_file (cleanup_expired_files 100 fm_reg disk_reg).2
             (fi_path info1)).
Proof.
  split; [simpl; lia|]. split.
  - vm_compute. reflexivity.
  - vm_compute. eauto.
Qed.

(** C5, amended.  [cleanup_expired_files] returns no count.  It removes
    from the registry exactly the entries whose expiry lies strictly before
    the time of the call, as many as the first loop has listed; an entry
    that expires at that very instant or later stays.  [get_file_info] on a
    removed id returns nothing, and the file of a removed entry is gone
    unless its path is protected.  Every other entry is returned unchanged
    by [get_file_info], and its file is what it was unless a removed entry
    had the same path. *)
Theorem cleanup_expired_files_removes_strictly_expired
    (now : datetime) (fm : FileManager) (d : Disk) :
  file_registry (cleanup_expired_files now fm d).1
  = filter (fun kv => ~ fi_expires_at kv.2 < now) (file_registry fm) /\
  size (file_registry fm)
  = (size (file_registry (cleanup_expired_files now fm d).1)
     + length (expired_files now (file_registry fm)))%nat /\
  (forall file_id info,
      file_registry fm !! file_id = Some info ->
      (fi_expires_at info < now ->
       get_file_info file_id (cleanup_expired_files now fm d).1 = None /\
       (fi_path info ∉ d_protected d ->
        d_files (cleanup_expired_files now fm d).2 !! fi_path info = None)) /\
      (now <= fi_expires_at info ->
       get_file_info file_id (cleanup_expired_files now fm d).1 = Some info /\
       ((forall other info',
            file_registry fm !! other = Some info' ->
            fi_expires_at info' < now -> fi_path info' <> fi_path info) ->
        d_files (cleanup_expired_files now fm d).2 !! fi_path info
        = d_files d !! fi_path info))).
Proof.
  pose proof (cleanup_expired_files_fm now fm d) as Hfm.
  assert (file_registry (cleanup_expired_files now fm d).1
          = filter (fun kv => ~ fi_expires_at kv.2 < now) (file_registry fm))
    as Hreg by now rewrite Hfm.
  split; [exact Hreg|]. split; [|intros file_id info Hinfo; split].
  - rewrite Hreg, expired_files_length, Nat.add_comm.
    rewrite <- map_size_disj_union
      by apply map_disjoint_filter_complement.
    now rewrite map_filter_union_complement.
  - intros Hexp. split.
    + unfold get_file_info. rewrite Hreg.
      apply map_lookup_filter_None. right. intros x Hx. simpl.
      assert (x = info) as -> by congruence. lia.
    + intros Hprot.
      apply (proj2 (cleanup_expired_files_disk now fm d) file_id info);
        assumption.
  - intros Hkeep.
    assert (file_registry (cleanup_expired_files now fm d).1 !! file_id
            = Some info) as Hstill.
    { rewrite Hreg. apply map_lookup_filter_Some. split; [exact Hinfo|].
      simpl. lia. }
    split; [exact Hstill|]. intros Hpaths.
    revert Hstill. unfold cleanup_expired_files.
    destruct (remove_expired_spec (expired_files now (file_registry fm)) fm d)
      as (reg' & d' & Heq & _).
    { apply expired_files_NoDup. }
    { intros k Hk. apply expired_files_elem in Hk as (i & -> & _). eauto. }
    pose proof (remove_expired_other (expired_files now (file_registry fm))
                  (fi_path info) fm d) as Hother.
    rewrite Heq in *. simpl in *. intros Hstill.
    rewrite (cleanup_orphaned_files_other now (set_file_registry reg' fm) d'
               file_id info Hstill).
    apply Hother. intros k i Hk Hi.
    apply expired_files_elem in Hk as (i' & Hi' & Hexp).
    assert (i' = i) as -> by congruence. eapply Hpaths; eauto.
Qed.

(** The entry ["f1"], swept at the instant 101. *)
Lemma cleanup_expired_files_removes_strictly_expired_witness :
  get_file_info "f1" (cleanup_expired_files 101 fm_reg disk_reg).1 = None /\
  (fi_path info1 ∉ d_protected disk_reg ->
   d_files (cleanup_expired_files 101 fm_reg disk_reg).2 !! fi_path info1
   = None).
Proof.
  apply (proj2 (proj2 (cleanup_expired_files_removes_strictly_expired
                         101 fm_reg disk_reg)) "f1" info1).
  - vm_compute. reflexivity.
  - simpl. lia.
Defined.

(** ** C2: a transfer and the sweeps *)

(** X2. Without a sweep in between, the round trip holds: up to the expiry,
    the code that [create_transfer_code] returned gives back the bytes and
    the name of the upload. *)
Lemma download_after_create (draws : list nat) (uuid4 : string)
    (now now' : datetime) (f : UploadedFile) (fm fm1 : FileManager)
    (d d1 : Disk) (code : string) :
  create_transfer_code draws uuid4 now f fm d
  = Some (Returned code, fm1, d1) ->
  now' <= now + timedelta_hours 24 ->
  (download_by_code code now' fm1 d1).1.1 = Some (uf_value f, uf_name f).
Proof.
  intros Hc Hnow.
  apply create_transfer_code_inv in Hc as (code' & _ & Hc).
  destruct Hc as [(msg & [=] & _)|(info & [= ->] & -> & Hname & Hexp & _ & Hw)].
  unfold download_by_code. simpl. rewrite lookup_insert_eq.
  rewrite Hexp. rewrite (proj2 (Z.ltb_ge _ _)) by lia.
  unfold write_file in Hw. destruct (_ || _); [discriminate|].
  injection Hw as <-.
  unfold os_path_exists, read_file. simpl. rewrite lookup_insert_eq. simpl.
  now rewrite Hname.
Qed.

(** C2 does not hold of the code.  [a.pdf] is sent at the instant 0 and
    gets the code ["1234"], valid for 24 hours.  The code gives the file
    back after 10 minutes, and still after a sweep run at 29 minutes.  The
    sweep run at 31 minutes takes the file of the transfer for an orphan,
    since it has no entry in [file_registry], and deletes it:
    [download_by_code] fails at 32 minutes, long before the expiry. *)
Theorem transfer_file_swept_after_30_minutes :
  create_transfer_code [234%nat] "u1" 0 a_pdf fresh.1 fresh.2
  = Some (Returned "1234", sent.1, sent.2) /\
  ti_expires_at <$> get_file_by_code "1234" sent.1
  = Some (timedelta_hours 24) /\
  (download_by_code "1234" (timedelta_minutes 10) sent.1 sent.2).1.1
  = Some (uf_value a_pdf, "a.pdf") /\
  (download_by_code "1234" (timedelta_minutes 30)
     (cleanup_expired_files (timedelta_minutes 29) sent.1 sent.2).1
     (cleanup_expired_files (timedelta_minutes 29) sent.1 sent.2).2).1.1
  = Some (uf_value a_pdf, "a.pdf") /\
  read_file (cleanup_expired_files (timedelta_minutes 31) sent.1 sent.2).2
    "/tmp/pdf_processor/transfer_u1.pdf" = None /\
  (download_by_code "1234" (timedelta_minutes 32)
     (cleanup_expired_files (timedelta_minutes 31) sent.1 sent.2).1
     (cleanup_expired_files (timedelta_minutes 31) sent.1 sent.2).2).1.1
  = None.
Proof.
  assert (create_transfer_code [234%nat] "u1" 0 a_pdf fresh.1 fresh.2
          = Some (Returned "1234", sent.1, sent.2)) as Hsent
    by (vm_compute; reflexivity).
  split; [exact Hsent|]. split; [vm_compute; reflexivity|].
  repeat split; vm_compute; reflexivity.
Qed.

(** ** C8: [delete_file] when the file cannot be removed *)

(** C8 does not hold of the code.  When the file of a registered id exists
    and [os.remove] fails on it, [delete_file] returns [False] and leaves
    the entry in the registry: the failure leaves the [try] block before
    the [del].  [cleanup_expired_files], which catches the failure around
    the removal alone, does drop the entry in the same situation. *)
Theorem delete_file_keeps_entry_when_removal_fails
    (now : datetime) (file_id : string) (info : FileInfo)
    (fm : FileManager) (d : Disk) :
  file_registry fm !! file_id = Some info ->
  os_path_exists d (fi_path info) = true ->
  os_remove d (fi_path info) = None ->
  delete_file file_id fm d = (false, fm, d) /\
  get_file_info file_id (delete_file file_id fm d).1.2 = Some info /\
  (fi_expires_at info < now ->
   get_file_info file_id (cleanup_expired_files now fm d).1 = None).
Proof.
  intros Hinfo Hexists Hremove.
  assert (delete_file file_id fm d = (false, fm, d)) as Hdel.
  { unfold delete_file. now rewrite Hinfo, Hexists, Hremove. }
  split; [exact Hdel|]. split; [rewrite Hdel; exact Hinfo|].
  intros Hexp. rewrite cleanup_expired_files_fm. unfold get_file_info. simpl.
  apply map_lookup_filter_None. right. intros x Hx. simpl.
  assert (x = info) as -> by congruence. lia.
Qed.

(** The entry ["f1"] on the disk whose file is protected. *)
Lemma delete_file_keeps_entry_when_removal_fails_witness :
  delete_file "f1" fm_reg disk_locked = (false, fm_reg, disk_locked) /\
  get_file_info "f1" (delete_file "f1" fm_reg disk_locked).1.2 = Some info1 /\
  (fi_expires_at info1 < 200 ->
   get_file_info "f1" (cleanup_expired_files 200 fm_reg disk_locked).1 = None).
Proof.
  apply (delete_file_keeps_entry_when_removal_fails 200 "f1" info1 fm_reg
           disk_locked); vm_compute; reflexivity.
Defined.

(** ** The orphan pass and the file of a transfer *)

Lemma prefix_append (pre s : string) : String.prefix pre (pre +:+ s) = true.
Proof.
  induction pre as [|a pre IH]; simpl.
  - now destruct s.
  - destruct (ascii_dec a a); [exact IH | contradiction].
Qed.

Lemma substring_all (s : string) : substring 0 (String.length s) s = s.
Proof. induction s as [|a s IH]; simpl; [reflexivity | now rewrite IH]. Qed.

Lemma substring_append (pre s : string) :
  substring (String.length pre)
    (String.length (pre +:+ s) - String.length pre) (pre +:+ s) = s.
Proof.
  induction pre as [|a pre IH]; simpl.
  - rewrite Nat.sub_0_r. apply substring_all.
  - exact IH.
Qed.

Lemma append_assoc (a b c : string) : (a +:+ b) +:+ c = a +:+ (b +:+ c).
Proof.
  induction a as [|x a IH]; [reflexivity|].
  change (String x ((a +:+ b) +:+ c) = String x (a +:+ (b +:+ c))).
  f_equal. exact IH.
Qed.

(** A file [dir/name] is listed under [name], when [name] is a plain name. *)
Lemma entry_name_join (dir name : string) :
  name <> "" -> rfind "/" name = -1 ->
  entry_name dir (os_path_join dir name) = Some name.
Proof.
  intros Hne Hslash. unfold entry_name, os_path_join.
  rewrite <- append_assoc, prefix_append, substring_append.
  rewrite bool_decide_eq_false_2 by exact Hne.
  rewrite Hslash. reflexivity.
Qed.

Lemma os_listdir_elem (d : Disk) (dir name : string) (names : list string) :
  os_listdir d dir = Some names ->
  name <> "" -> rfind "/" name = -1 ->
  is_Some (d_files d !! os_path_join dir name) ->
  name ∈ names.
Proof.
  unfold os_listdir. case_bool_decide; [|discriminate].
  intros [= <-] Hne Hslash [f Hf].
  apply list_elem_of_omap. exists (os_path_join dir name).
  split; [|now apply entry_name_join].
  apply list_elem_of_fmap. exists (os_path_join dir name, f).
  split; [reflexivity|]. now apply elem_of_map_to_list.
Qed.

Lemma os_path_join_inj (dir a b : string) :
  os_path_join dir a = os_path_join dir b -> a = b.
Proof.
  unfold os_path_join. intros H. apply String.app_inj in H.
  now injection H.
Qed.

(** The loop over the listing deletes an unregistered, unprotected, old
    file of the directory. *)
Lemma orphan_loop_deletes (now : datetime) (dir : string)
    (paths : gset string) (window : Z) (name : string) (names : list string) :
  os_path_join dir name ∉ paths ->
  forall d : Disk,
    d_files d !! os_path_join dir name = None \/
    (name ∈ names /\ (os_path_join dir name ∉ d_protected d) /\
     exists f, d_files d !! os_path_join dir name = Some f /\
               window * 60 * microseconds_per_second < now - df_mtime f) ->
    d_files (foldl (orphan_step now dir paths window) d names)
      !! os_path_join dir name = None.
Proof.
  intros Hpaths. induction names as [|x names IH]; intros d Hd.
  - destruct Hd as [Hd|[Hin _]]; [exact Hd | now apply elem_of_nil in Hin].
  - simpl. apply IH.
    pose proof (orphan_step_shrinks now dir paths window d x) as Hsh.
    destruct Hd as [Hd|(Hin & Hprot & f & Hf & Hold)].
    { left. eapply disk_shrinks_absent; eauto. }
    destruct (decide (x = name)) as [->|Hne].
    + left. unfold orphan_step.
      rewrite bool_decide_eq_false_2 by exact Hpaths.
      unfold os_path_getmtime, os_remove. rewrite Hf. simpl.
      rewrite (proj2 (Z.ltb_lt _ _) Hold).
      rewrite bool_decide_eq_false_2 by exact Hprot.
      simpl. apply lookup_delete_eq.
    + right. apply elem_of_cons in Hin as [Heq|Hin]; [congruence|].
      split; [exact Hin|]. split.
      * destruct Hsh as (_ & _ & ->). exact Hprot.
      * exists f. split; [|exact Hold]. rewrite <- Hf.
        unfold orphan_step. case_bool_decide; [reflexivity|].
        destruct (os_path_getmtime d _); [|reflexivity].
        destruct (_ <? _); [|reflexivity].
        destruct (os_remove d _) eqn:Hr; [|reflexivity].
        eapply os_remove_other; eauto.
        intros Heq. apply os_path_join_inj in Heq. congruence.
Qed.

(** The record and the file that a returning [create_transfer_code]
    leaves behind. *)
Lemma create_transfer_code_record (draws : list nat) (uuid4 : string)
    (now : datetime) (f : UploadedFile) (fm fm1 : FileManager) (d d1 : Disk)
    (code : string) :
  create_transfer_code draws uuid4 now f fm d
  = Some (Returned code, fm1, d1) ->
  let temp_path :=
    os_path_join (app_temp_dir fm)
      ("transfer_" +:+ uuid4 +:+ splitext_ext (uf_name f)) in
  fm1 = set_transfer_codes
          (<[code := mkTransferInfo temp_path (uf_name f) now
                       (now + timedelta_hours 24) (length (uf_value f))
                       false]> (transfer_codes fm)) fm /\
  write_file d temp_path (uf_value f) now = Some d1.
Proof.
  unfold create_transfer_code.
  destruct (generate_code draws (transfer_codes fm)) as [c|]; [|discriminate].
  destruct (write_file d _ (uf_value f) now) as [d'|] eqn:Hw; [|discriminate].
  intros [= <- <- <-]. split; reflexivity.
Qed.

Lemma write_file_Some (d d' : Disk) (p : string) (data : bytes)
    (now : datetime) :
  write_file d p data now = Some d' ->
  d' = set_files (<[p := mkDiskFile data now]> (d_files d)) d /\
  (p ∉ d_dirs d) /\ (p ∉ d_protected d).
Proof.
  unfold write_file.
  destruct (bool_decide (p ∈ d_dirs d)) eqn:H1;
    destruct (bool_decide (p ∈ d_protected d)) eqn:H2; try discriminate.
  intros [= <-]. apply bool_decide_eq_false in H1, H2. auto.
Qed.

(** X1. The general form of the defect behind C2: whatever was sent, a sweep
    that runs more than [expiration_minutes] after the upload deletes the
    file of the transfer, and the code stops working from then on. *)
Lemma orphan_sweep_deletes_transfer_file (draws : list nat) (uuid4 : string)
    (t0 t1 t2 : datetime) (f : UploadedFile) (fm fm1 : FileManager)
    (d d1 : Disk) (code : string) :
  create_transfer_code draws uuid4 t0 f fm d
  = Some (Returned code, fm1, d1) ->
  app_temp_dir fm ∈ d_dirs d ->
  rfind "/" ("transfer_" +:+ uuid4 +:+ splitext_ext (uf_name f)) = -1 ->
  (forall file_id info,
      file_registry fm !! file_id = Some info ->
      fi_path info <>
      os_path_join (app_temp_dir fm)
        ("transfer_" +:+ uuid4 +:+ splitext_ext (uf_name f))) ->
  timedelta_minutes (expiration_minutes fm) < t1 - t0 ->
  (download_by_code code t2
     (cleanup_expired_files t1 fm1 d1).1
     (cleanup_expired_files t1 fm1 d1).2).1.1 = None.
Proof.
  intros Hc Hdir Hslash Hreg Hold.
  apply create_transfer_code_record in Hc as [-> Hw].
  set (name := "transfer_" +:+ uuid4 +:+ splitext_ext (uf_name f)) in *.
  set (p := os_path_join (app_temp_dir fm) name) in *.
  apply write_file_Some in Hw as (-> & Hpdir & Hpprot).
  set (fm1 := set_transfer_codes _ fm).
  set (d1 := set_files _ d).
  assert (d_files (cleanup_expired_files t1 fm1 d1).2 !! p = None) as Hgone.
  { unfold cleanup_expired_files.
    destruct (remove_expired_spec (expired_files t1 (file_registry fm1))
                fm1 d1) as (reg' & d' & Heq & Hreg' & Hsh & _).
    { apply expired_files_NoDup. }
    { intros k Hk. apply expired_files_elem in Hk as (i & -> & _). eauto. }
    pose proof (remove_expired_other (expired_files t1 (file_registry fm1))
                  p fm1 d1) as Hother.
    rewrite Heq in *. simpl in Hother. simpl.
    rewrite lookup_insert_eq in Hother.
    destruct Hsh as (_ & Hdirs & Hprot). simpl in Hdirs, Hprot.
    unfold _cleanup_orphaned_files, os_path_exists. simpl.
    rewrite (bool_decide_eq_true_2 (app_temp_dir fm ∈ d_dirs d'))
      by (rewrite Hdirs; exact Hdir).
    rewrite orb_true_r. simpl.
    destruct (os_listdir d' (app_temp_dir fm)) as [names|] eqn:Hls.
    2:{ unfold os_listdir in Hls.
        rewrite bool_decide_eq_true_2 in Hls by (rewrite Hdirs; exact Hdir).
        discriminate. }
    apply orphan_loop_deletes.
    - intros Hin. apply elem_of_map_img in Hin as (k & Hk).
      rewrite lookup_fmap in Hk.
      destruct (reg' !! k) as [i|] eqn:Hi; [|discriminate].
      injection Hk as Hk. rewrite Hreg' in Hi.
      destruct (decide _); [discriminate|].
      apply (Hreg k i Hi). exact Hk.
    - right. fold p.
      assert (d_files d' !! p
              = Some (mkDiskFile (uf_value f) t0)) as Hp.
      { apply Hother. intros k i _ Hi. apply (Hreg k i Hi). }
      split; [|split].
      + apply (os_listdir_elem d' _ name names Hls).
        * discriminate.
        * exact Hslash.
        * fold p. rewrite Hp. eauto.
      + rewrite Hprot. exact Hpprot.
      + eexists. split; [exact Hp|]. simpl.
        unfold timedelta_minutes in Hold. exact Hold. }
  assert (p ∉ d_dirs (cleanup_expired_files t1 fm1 d1).2) as Hnodir.
  { destruct (cleanup_expired_files_disk t1 fm1 d1) as [(_ & -> & _) _].
    exact Hpdir. }
  unfold download_by_code. rewrite cleanup_expired_files_codes.
  simpl. rewrite lookup_insert_eq. simpl.
  destruct (_ <? t2); [reflexivity|].
  unfold os_path_exists. fold name. fold p. rewrite Hgone.
  rewrite bool_decide_eq_false_2 by (intros [x Hx]; discriminate).
  rewrite bool_decide_eq_false_2 by exact Hnodir.
  reflexivity.
Qed.

(** The transfer of [sent], swept at 31 minutes. *)
Lemma orphan_sweep_deletes_transfer_file_witness :
  (download_by_code "1234" (timedelta_minutes 32)
     (cleanup_expired_files (timedelta_minutes 31) sent.1 sent.2).1
     (cleanup_expired_files (timedelta_minutes 31) sent.1 sent.2).2).1.1
  = None.
Proof.
  apply (orphan_sweep_deletes_transfer_file [234%nat] "u1" 0
           (timedelta_minutes 31) (timedelta_minutes 32) a_pdf
           fresh.1 sent.1 fresh.2 sent.2 "1234").
  - vm_compute. reflexivity.
  - apply (bool_decide_unpack (app_temp_dir fresh.1 ∈ d_dirs fresh.2)).
    vm_compute. exact I.
  - vm_compute. reflexivity.
  - intros file_id info Hinfo. vm_compute in Hinfo. discriminate.
  - vm_compute. reflexivity.
Defined.

(** The transfer of [sent], redeemed at its expiry. *)
Lemma download_after_create_witness :
  (download_by_code "1234" (timedelta_hours 24) sent.1 sent.2).1.1
  = Some (uf_value a_pdf, uf_name a_pdf).
Proof.
  apply (download_after_create [234%nat] "u1" 0 (timedelta_hours 24) a_pdf
           fresh.1 sent.1 fresh.2 sent.2 "1234").
  - vm_compute. reflexivity.
  - vm_compute. discriminate.
Defined.

(** ** Two further properties of the registry *)



(** X4. [delete_file] twice: when the first call returns [True], the entry
    is gone and a second call returns [False] and changes nothing. *)
Lemma delete_file_twice (file_id : string) (fm fm' : FileManager)
    (d d' : Disk) :
  delete_file file_id fm d = (true, fm', d') ->
  get_file_info file_id fm' = None /\
  delete_file file_id fm' d' = (false, fm', d').
Proof.
  unfold delete_file at 1.
  destruct (file_registry fm !! file_id) as [info|]; [|discriminate].
  assert (forall d0,
             delete_file file_id
               (set_file_registry (delete file_id (file_registry fm)) fm) d0
             = (false,
                set_file_registry (delete file_id (file_registry fm)) fm,
                d0)) as Hsecond.
  { intros d0. unfold delete_file. simpl. now rewrite lookup_delete_eq. }
  destruct (os_path_exists d (fi_path info)).
  - destruct (os_remove d (fi_path info)); [|discriminate].
    intros [= <- <-]. split; [apply lookup_delete_eq | apply Hsecond].
  - intros [= <- <-]. split; [apply lookup_delete_eq | apply Hsecond].
Qed.

(** The entry ["f1"] on a disk that lets the file go. *)
Lemma delete_file_twice_witness :
  get_file_info "f1" (delete_file "f1" fm_reg disk_reg).1.2 = None /\
  delete_file "f1" (delete_file "f1" fm_reg disk_reg).1.2
    (delete_file "f1" fm_reg disk_reg).2
  = (false, (delete_file "f1" fm_reg disk_reg).1.2,
     (delete_file "f1" fm_reg disk_reg).2).
Proof.
  apply (delete_file_twice "f1" fm_reg _ disk_reg _).
  vm_compute. reflexivity.
Defined.

(** * The rest of the class *)

(** ** [extend_file_expiration] *)

Lemma registry_items_elem (order : list string) (reg : gmap string FileInfo)
    (file_id : string) (info : FileInfo) :
  (file_id, info) ∈ registry_items order reg <->
  file_id ∈ order /\ reg !! file_id = Some info.
Proof.
  unfold registry_items. rewrite list_elem_of_omap. split.
  - intros (k & Hk & Hf). destruct (reg !! k) as [i|] eqn:Hi; [|discriminate].
    injection Hf as <- <-. auto.
  - intros [Hk Hi]. exists file_id. split; [exact Hk|]. now rewrite Hi.
Qed.

Lemma extend_file_expiration_found (order : list string) (file_path : string)
    (fm : FileManager) (file_id : string) (info : FileInfo) :
  file_id ∈ order -> only_entry_at fm file_id info file_path ->
  exists n,
    list_find (fun kv => fi_path kv.2 = file_path)
      (registry_items order (file_registry fm)) = Some (n, (file_id, info)).
Proof.
  intros Hin (Hinfo & Hpath & Honly).
  destruct (list_find_elem_of (fun kv : string * FileInfo =>
                                 fi_path kv.2 = file_path)
              (registry_items order (file_registry fm)) (file_id, info))
    as [[n [k i]] Hfind].
  { apply registry_items_elem. auto. }
  { exact Hpath. }
  exists n. rewrite Hfind.
  apply list_find_Some in Hfind as (Hl & Hp & _).
  apply list_elem_of_lookup_2, registry_items_elem in Hl as [_ Hi].
  simpl in Hp. assert (k = file_id) as -> by eauto.
  assert (i = info) as -> by congruence. reflexivity.
Qed.

(** X5.  [extend_file_expiration] returns [False] and changes nothing when
    no entry of the registry has the path.  When exactly one entry has it,
    the call adds [additional_minutes] minutes (of either sign) to the
    expiry of that entry and of no other and returns [True]; but when the
    [timedelta] or the new expiry leaves the range of the type, it returns
    [False] and changes nothing. *)
Theorem extend_file_expiration_spec :
  (forall order file_path additional_minutes fm,
      (forall file_id info,
          file_registry fm !! file_id = Some info ->
          fi_path info <> file_path) ->
      extend_file_expiration order file_path additional_minutes fm
      = (false, fm)) /\
  (forall order file_path additional_minutes fm file_id info,
      file_id ∈ order -> only_entry_at fm file_id info file_path ->
      (extension_in_range (fi_expires_at info) additional_minutes ->
       extend_file_expiration order file_path additional_minutes fm
       = (true,
          set_file_registry
            (<[file_id :=
                 set_expires_at
                   (fi_expires_at info + timedelta_minutes additional_minutes)
                   info]> (file_registry fm)) fm)) /\
      (~ extension_in_range (fi_expires_at info) additional_minutes ->
       extend_file_expiration order file_path additional_minutes fm
       = (false, fm))).
Proof.
  split.
  - intros order file_path m fm Hnone. unfold extend_file_expiration.
    destruct (list_find _ _) as [[n [k i]]|] eqn:Hfind; [|reflexivity].
    apply list_find_Some in Hfind as (Hl & Hp & _).
    apply list_elem_of_lookup_2, registry_items_elem in Hl as [_ Hi].
    now destruct (Hnone k i Hi).
  - intros order file_path m fm file_id info Hin Honly.
    destruct (extend_file_expiration_found order file_path fm file_id info
                Hin Honly) as [n Hfind].
    unfold extend_file_expiration. rewrite Hfind.
    unfold extension_in_range, timedelta_of_minutes, datetime_add.
    split.
    + intros [[H1 H2] [H3 H4]].
      rewrite (proj2 (Z.leb_le _ _) H1), (proj2 (Z.leb_le _ _) H2). simpl.
      rewrite (proj2 (Z.leb_le _ _) H3), (proj2 (Z.leb_le _ _) H4).
      reflexivity.
    + intros Hout.
      destruct (timedelta_min <=? timedelta_minutes m) eqn:E1;
        destruct (timedelta_minutes m <=? timedelta_max) eqn:E2;
        try reflexivity. simpl.
      destruct (0 <=? fi_expires_at info + timedelta_minutes m) eqn:E3;
        destruct (fi_expires_at info + timedelta_minutes m <=? datetime_max)
          eqn:E4; try reflexivity.
      exfalso. apply Hout.
      apply Z.leb_le in E1, E2, E3, E4. auto.
Qed.

(** The entry ["f1"], which expires at the instant 100, extended by the
    default 30 minutes. *)
Lemma extend_file_expiration_spec_witness :
  extend_file_expiration ["f1"] "/tmp/pdf_processor/f1.pdf" 30 fm_reg
  = (true,
     set_file_registry
       (<["f1" := set_expires_at (100 + timedelta_minutes 30) info1]>
          (file_registry fm_reg)) fm_reg).
Proof.
  apply (proj2 extend_file_expiration_spec ["f1"]
           "/tmp/pdf_processor/f1.pdf" 30 fm_reg "f1" info1).
  - apply list_elem_of_here.
  - split; [reflexivity|]. split; [reflexivity|].
    intros other info' Hother _.
    change (file_registry fm_reg) with ({[ "f1" := info1 ]}
                                        : gmap string FileInfo) in Hother.
    apply lookup_singleton_Some in Hother as [<- _]. reflexivity.
  - unfold extension_in_range, timedelta_min, timedelta_max, datetime_max,
      timedelta_minutes, microseconds_per_day, microseconds_per_second.
    simpl. lia.
Defined.

(** ** Registered files and the sweeps *)

(** One sweep keeps an entry that has not expired, and its file unless an
    expired entry has the same path. *)
Lemma cleanup_expired_files_keeps (now : datetime) (fm : FileManager)
    (d : Disk) (file_id : string) (info : FileInfo) :
  file_registry fm !! file_id = Some info ->
  now <= fi_expires_at info ->
  file_registry (cleanup_expired_files now fm d).1 !! file_id = Some info /\
  ((forall other info',
       file_registry fm !! other = Some info' ->
       fi_expires_at info' < now -> fi_path info' <> fi_path info) ->
   d_files (cleanup_expired_files now fm d).2 !! fi_path info
   = d_files d !! fi_path info).
Proof.
  intros Hinfo Hkeep.
  assert (file_registry (cleanup_expired_files now fm d).1 !! file_id
          = Some info) as Hstill.
  { rewrite cleanup_expired_files_fm. simpl.
    apply map_lookup_filter_Some. split; [exact Hinfo|]. simpl. lia. }
  split; [exact Hstill|]. intros Hpaths.
  revert Hstill. unfold cleanup_expired_files.
  destruct (remove_expired_spec (expired_files now (file_registry fm)) fm d)
    as (reg' & d' & Heq & _).
  { apply expired_files_NoDup. }
  { intros k Hk. apply expired_files_elem in Hk as (i & -> & _). eauto. }
  pose proof (remove_expired_other (expired_files now (file_registry fm))
                (fi_path info) fm d) as Hother.
  rewrite Heq in *. simpl in *. intros Hstill.
  rewrite (cleanup_orphaned_files_other now (set_file_registry reg' fm) d'
             file_id info Hstill).
  apply Hother. intros k i Hk Hi.
  apply expired_files_elem in Hk as (i' & Hi' & Hexp).
  assert (i' = i) as -> by congruence. eapply Hpaths; eauto.
Qed.

Lemma cleanup_expired_files_lookup (now : datetime) (fm : FileManager)
    (d : Disk) (file_id : string) (info : FileInfo) :
  file_registry (cleanup_expired_files now fm d).1 !! file_id = Some info ->
  file_registry fm !! file_id = Some info.
Proof.
  rewrite cleanup_expired_files_fm. simpl. intros H.
  now apply map_lookup_filter_Some in H as [H _].
Qed.

(** An entry outlives every sweep that runs up to its expiry: when no other
    entry of the registry has its path, then after any number of sweeps,
    none later than the expiry, [get_file_info] still returns the entry
    unchanged and the file on the disk is what it was. *)
Lemma sweeps_keep_entry (times : list datetime)
    (fm : FileManager) (d : Disk) (file_id : string) (info : FileInfo) :
  only_entry_at fm file_id info (fi_path info) ->
  Forall (fun t => t <= fi_expires_at info) times ->
  get_file_info file_id (sweeps times (fm, d)).1 = Some info /\
  d_files (sweeps times (fm, d)).2 !! fi_path info
  = d_files d !! fi_path info.
Proof.
  intros Honly Htimes. revert fm d Honly.
  induction Htimes as [|t times Ht _ IH]; intros fm d (Hinfo & _ & Honly).
  - split; [exact Hinfo | reflexivity].
  - unfold sweeps. simpl. fold (sweeps times (cleanup_expired_files t fm d)).
    destruct (cleanup_expired_files_keeps t fm d file_id info Hinfo Ht)
      as [Hstill Hfile].
    destruct (cleanup_expired_files t fm d) as [fm1 d1] eqn:Hc.
    simpl in Hstill, Hfile.
    destruct (IH fm1 d1) as [Hget Hdisk].
    { split; [exact Hstill|]. split; [reflexivity|].
      intros other info' Hother Hpath. apply (Honly other info'); [|exact Hpath].
      apply (cleanup_expired_files_lookup t fm d). now rewrite Hc. }
    split; [exact Hget|]. rewrite Hdisk. apply Hfile.
    intros other info' Hother Hexp Hpath.
    assert (other = file_id) as -> by eauto.
    assert (info' = info) as -> by congruence. lia.
Qed.

(** What a returning [save_uploaded_file] leaves behind. *)
Lemma save_uploaded_file_record (uuid4 : string) (now : datetime)
    (f : UploadedFile) (is_admin : bool) (fm fm1 : FileManager)
    (d d1 : Disk) (p : string) :
  save_uploaded_file uuid4 now f is_admin fm d = (Returned p, fm1, d1) ->
  let info :=
    mkFileInfo p (uf_name f) now
      (if is_admin then now + timedelta_hours (admin_expiration_hours fm)
       else now + timedelta_minutes (expiration_minutes fm))
      (length (uf_value f)) (Some is_admin) (Some uuid4) in
  p = os_path_join (app_temp_dir fm) (uuid4 +:+ splitext_ext (uf_name f)) /\
  fm1 = set_file_registry (<[uuid4 := info]> (file_registry fm)) fm /\
  write_file d p (uf_value f) now = Some d1.
Proof.
  unfold save_uploaded_file.
  destruct (write_file d _ (uf_value f) now) as [d'|] eqn:Hw; [|discriminate].
  intros [= <- <- <-]. repeat split. exact Hw.
Qed.

(** What a returning [save_processed_file] leaves behind. *)
Lemma save_processed_file_record (uuid4 : string) (now : datetime)
    (source_path output_name : string) (fm fm1 : FileManager)
    (d d1 : Disk) (p : string) :
  save_processed_file uuid4 now source_path output_name fm d
  = (Returned p, fm1, d1) ->
  exists src,
    d_files d !! source_path = Some src /\
    p = os_path_join (app_temp_dir fm) (uuid4 +:+ splitext_ext output_name) /\
    fm1 = set_file_registry
            (<[uuid4 := mkFileInfo p output_name now
                          (now + timedelta_minutes (expiration_minutes fm))
                          (length (df_data src)) None None]>
               (file_registry fm)) fm /\
    d1 = set_files (<[p := src]> (d_files d)) d /\
    (p ∉ d_dirs d) /\ (p ∉ d_protected d).
Proof.
  unfold save_processed_file, shutil_copy2.
  destruct (d_files d !! source_path) as [src|] eqn:Hsrc; [|discriminate].
  destruct (bool_decide (_ ∈ d_dirs d)) eqn:H1;
    destruct (bool_decide (_ ∈ d_protected d)) eqn:H2; try discriminate.
  simpl. rewrite lookup_insert_eq.
  intros [= <- <- <-]. apply bool_decide_eq_false in H1, H2.
  exists src. repeat split; assumption.
Qed.

(** X6.  A file saved by [save_uploaded_file] or by [save_processed_file]
    under a path that no entry of the registry had outlives every sweep
    that runs up to its expiry: after any number of calls of
    [cleanup_expired_files], none later than the expiry, its entry is still
    returned by [get_file_info] and the saved bytes are still read at the
    path that the call returned. *)
Theorem saved_file_survives_sweeps :
  (forall uuid4 now f is_admin fm d p fm1 d1 times,
      save_uploaded_file uuid4 now f is_admin fm d = (Returned p, fm1, d1) ->
      (forall k i, file_registry fm !! k = Some i -> fi_path i <> p) ->
      Forall (fun t =>
                t <= now + (if is_admin
                            then timedelta_hours (admin_expiration_hours fm)
                            else timedelta_minutes (expiration_minutes fm)))
             times ->
      is_Some (get_file_info uuid4 (sweeps times (fm1, d1)).1) /\
      read_file (sweeps times (fm1, d1)).2 p = Some (uf_value f)) /\
  (forall uuid4 now source_path output_name fm d p fm1 d1 times,
      save_processed_file uuid4 now source_path output_name fm d
      = (Returned p, fm1, d1) ->
      (forall k i, file_registry fm !! k = Some i -> fi_path i <> p) ->
      Forall (fun t => t <= now + timedelta_minutes (expiration_minutes fm))
             times ->
      is_Some (get_file_info uuid4 (sweeps times (fm1, d1)).1) /\
      read_file (sweeps times (fm1, d1)).2 p = read_file d source_path).
Proof.
  split.
  - intros uuid4 now f is_admin fm d p fm1 d1 times Hsave Hfree Htimes.
    apply save_uploaded_file_record in Hsave as (_ & -> & Hw).
    apply write_file_Some in Hw as (-> & _ & _).
    set (info := mkFileInfo p _ _ _ _ _ _).
    destruct (sweeps_keep_entry times
                (set_file_registry (<[uuid4 := info]> (file_registry fm)) fm)
                (set_files (<[p := mkDiskFile (uf_value f) now]> (d_files d)) d)
                uuid4 info) as [Hget Hdisk].
    + split; [apply lookup_insert_eq|]. split; [reflexivity|].
      intros other info' Hother Hpath. simpl in Hother.
      destruct (decide (uuid4 = other)) as [->|Hne]; [reflexivity|].
      rewrite lookup_insert_ne in Hother by exact Hne.
      now destruct (Hfree other info' Hother).
    + eapply Forall_impl; [exact Htimes|]. intros t Ht. simpl.
      destruct is_admin; lia.
    + split; [rewrite Hget; eauto|].
      unfold read_file. simpl in Hdisk. rewrite Hdisk.
      simpl. now rewrite lookup_insert_eq.
  - intros uuid4 now source_path output_name fm d p fm1 d1 times
      Hsave Hfree Htimes.
    apply save_processed_file_record in Hsave
      as (src & Hsrc & _ & -> & -> & _ & _).
    set (info := mkFileInfo p _ _ _ _ _ _).
    destruct (sweeps_keep_entry times
                (set_file_registry (<[uuid4 := info]> (file_registry fm)) fm)
                (set_files (<[p := src]> (d_files d)) d)
                uuid4 info) as [Hget Hdisk].
    + split; [apply lookup_insert_eq|]. split; [reflexivity|].
      intros other info' Hother Hpath. simpl in Hother.
      destruct (decide (uuid4 = other)) as [->|Hne]; [reflexivity|].
      rewrite lookup_insert_ne in Hother by exact Hne.
      now destruct (Hfree other info' Hother).
    + exact Htimes.
    + split; [rewrite Hget; eauto|].
      unfold read_file. simpl in Hdisk. rewrite Hdisk.
      simpl. now rewrite lookup_insert_eq, Hsrc.
Qed.

(** An upload into a fresh manager, swept at 10 and at 30 minutes. *)
Lemma saved_file_survives_sweeps_witness :
  is_Some
    (get_file_info "u7"
       (sweeps [timedelta_minutes 10; timedelta_minutes 30]
          ((save_uploaded_file "u7" 0 a_pdf false fresh.1 fresh.2).1.2,
           (save_uploaded_file "u7" 0 a_pdf false fresh.1 fresh.2).2)).1) /\
  read_file
    (sweeps [timedelta_minutes 10; timedelta_minutes 30]
       ((save_uploaded_file "u7" 0 a_pdf false fresh.1 fresh.2).1.2,
        (save_uploaded_file "u7" 0 a_pdf false fresh.1 fresh.2).2)).2
    "/tmp/pdf_processor/u7.pdf" = Some (uf_value a_pdf).
Proof.
  apply (proj1 saved_file_survives_sweeps "u7" 0 a_pdf false fresh.1 fresh.2
           "/tmp/pdf_processor/u7.pdf").
  - vm_compute. reflexivity.
  - intros k i Hk. vm_compute in Hk. discriminate.
  - repeat constructor; vm_compute; discriminate.
Defined.

Lemma extend_file_expiration_ok (order : list string) (file_path : string)
    (m : Z) (fm : FileManager) (file_id : string) (info : FileInfo) :
  file_id ∈ order -> only_entry_at fm file_id info file_path ->
  extension_in_range (fi_expires_at info) m ->
  extend_file_expiration order file_path m fm
  = (true,
     set_file_registry
       (<[file_id := set_expires_at (fi_expires_at info + timedelta_minutes m)
                       info]> (file_registry fm)) fm).
Proof.
  intros Hin Honly [[H1 H2] [H3 H4]].
  destruct (extend_file_expiration_found order file_path fm file_id info
              Hin Honly) as [n Hfind].
  unfold extend_file_expiration, timedelta_of_minutes, datetime_add.
  rewrite Hfind.
  rewrite (proj2 (Z.leb_le _ _) H1), (proj2 (Z.leb_le _ _) H2). simpl.
  now rewrite (proj2 (Z.leb_le _ _) H3), (proj2 (Z.leb_le _ _) H4).
Qed.

(** X7.  An extension defers the sweep.  Take the one entry with a given
    path and a sweep that runs after its expiry but not later than the
    extended expiry.  Without the extension the sweep drops the entry; after
    [extend_file_expiration] the same sweep keeps the entry, with the new
    expiry, and leaves its file as it was. *)
Theorem extension_defers_sweep (order : list string) (file_path : string)
    (m now : Z) (fm : FileManager) (d : Disk) (file_id : string)
    (info : FileInfo) :
  file_id ∈ order -> only_entry_at fm file_id info file_path ->
  extension_in_range (fi_expires_at info) m ->
  fi_expires_at info < now <= fi_expires_at info + timedelta_minutes m ->
  get_file_info file_id (cleanup_expired_files now fm d).1 = None /\
  get_file_info file_id
    (cleanup_expired_files now
       (extend_file_expiration order file_path m fm).2 d).1
  = Some (set_expires_at (fi_expires_at info + timedelta_minutes m) info) /\
  d_files (cleanup_expired_files now
             (extend_file_expiration order file_path m fm).2 d).2
    !! file_path
  = d_files d !! file_path.
Proof.
  intros Hin Honly Hrange [Hexp Hnew].
  rewrite (extend_file_expiration_ok order file_path m fm file_id info
             Hin Honly Hrange). simpl.
  destruct Honly as (Hinfo & Hpath & Honly).
  split.
  - rewrite cleanup_expired_files_fm. unfold get_file_info. simpl.
    apply map_lookup_filter_None. right. intros x Hx. simpl.
    assert (x = info) as -> by congruence. lia.
  - set (info' := set_expires_at _ info).
    set (fm' := set_file_registry _ fm).
    destruct (cleanup_expired_files_keeps now fm' d file_id info')
      as [Hstill Hfile].
    { apply lookup_insert_eq. }
    { exact Hnew. }
    split; [exact Hstill|].
    change (fi_path info') with (fi_path info) in Hfile.
    rewrite Hpath in Hfile. apply Hfile.
    intros other i Hother Hold Hsame. simpl in Hother.
    destruct (decide (file_id = other)) as [<-|Hne].
    + rewrite lookup_insert_eq in Hother. injection Hother as <-.
      simpl in Hold. lia.
    + rewrite lookup_insert_ne in Hother by exact Hne.
      apply Hne. symmetry. eauto.
Qed.

(** The entry ["f1"], extended by 30 minutes and swept at the instant
    200. *)
Lemma extension_defers_sweep_witness :
  get_file_info "f1" (cleanup_expired_files 200 fm_reg disk_reg).1 = None /\
  get_file_info "f1"
    (cleanup_expired_files 200
       (extend_file_expiration ["f1"] "/tmp/pdf_processor/f1.pdf" 30
          fm_reg).2 disk_reg).1
  = Some (set_expires_at (fi_expires_at info1 + timedelta_minutes 30) info1) /\
  d_files (cleanup_expired_files 200
             (extend_file_expiration ["f1"] "/tmp/pdf_processor/f1.pdf" 30
                fm_reg).2 disk_reg).2
    !! "/tmp/pdf_processor/f1.pdf"
  = d_files disk_reg !! "/tmp/pdf_processor/f1.pdf".
Proof.
  apply (extension_defers_sweep ["f1"] "/tmp/pdf_processor/f1.pdf" 30 200
           fm_reg disk_reg "f1" info1).
  - apply list_elem_of_here.
  - split; [reflexivity|]. split; [reflexivity|].
    intros other info' Hother _.
    change (file_registry fm_reg) with ({[ "f1" := info1 ]}
                                        : gmap string FileInfo) in Hother.
    apply lookup_singleton_Some in Hother as [<- _]. reflexivity.
  - unfold extension_in_range, timedelta_min, timedelta_max, datetime_max,
      timedelta_minutes, microseconds_per_day, microseconds_per_second.
    simpl. lia.
  - unfold timedelta_minutes, microseconds_per_second. simpl. lia.
Defined.

(** ** [force_cleanup_all] *)

Lemma remove_if_file_shrinks (dir : string) (d : Disk) (name : string) :
  disk_shrinks d (remove_if_file dir d name).
Proof.
  unfold remove_if_file. destruct (os_path_isfile d _).
  - destruct (os_remove d _) eqn:Hr; [|apply disk_shrinks_refl].
    eapply os_remove_shrinks; eauto.
  - apply disk_shrinks_refl.
Qed.

Lemma remove_if_file_gone (dir : string) (d : Disk) (name : string) :
  os_path_join dir name ∉ d_protected d ->
  d_files (remove_if_file dir d name) !! os_path_join dir name = None.
Proof.
  intros Hp. unfold remove_if_file, os_path_isfile, os_remove.
  destruct (d_files d !! os_path_join dir name) as [f|] eqn:Hf.
  - rewrite bool_decide_eq_true_2 by eauto.
    rewrite bool_decide_eq_false_2 by assumption.
    simpl. apply lookup_delete_eq.
  - rewrite bool_decide_eq_false_2 by (intros [x Hx]; discriminate).
    exact Hf.
Qed.

(** A loop of best-effort deletions removes every unprotected file that it
    is asked to remove. *)
Lemma deletion_loop_gone {A : Type} (step : Disk -> A -> Disk)
    (path_of : A -> string) (l : list A) (x : A) :
  (forall d y, disk_shrinks d (step d y)) ->
  (forall d y, path_of y ∉ d_protected d ->
               d_files (step d y) !! path_of y = None) ->
  x ∈ l ->
  forall d, path_of x ∉ d_protected d ->
            d_files (foldl step d l) !! path_of x = None.
Proof.
  intros Hsh Hgone. induction l as [|y l IH]; intros Hin d Hp.
  - now apply elem_of_nil in Hin.
  - simpl. apply elem_of_cons in Hin as [->|Hin].
    + eapply disk_shrinks_absent; [apply foldl_shrinks, Hsh|].
      now apply Hgone.
    + apply IH; [exact Hin|].
      destruct (Hsh d y) as (_ & _ & ->). exact Hp.
Qed.

Lemma force_cleanup_all_disk (fm : FileManager) (d : Disk) :
  exists d1,
    d1 = foldl remove_if_exists d
           (fi_path <$> (map_to_list (file_registry fm)).*2) /\
    disk_shrinks d d1 /\ disk_shrinks d1 (force_cleanup_all fm d).2.
Proof.
  eexists. split; [reflexivity|]. split.
  - apply foldl_shrinks. intros. apply remove_if_exists_shrinks.
  - unfold force_cleanup_all. destruct (os_path_exists _ _).
    + destruct (os_listdir _ _); [|apply disk_shrinks_refl].
      apply foldl_shrinks. intros. apply remove_if_file_shrinks.
    + apply disk_shrinks_refl.
Qed.

(** The second loop of [force_cleanup_all] empties the directory. *)
Lemma force_cleanup_all_dir (fm : FileManager) (d : Disk) (name : string) :
  app_temp_dir fm ∈ d_dirs d -> plain_name name ->
  os_path_join (app_temp_dir fm) name ∉ d_protected d ->
  d_files (force_cleanup_all fm d).2 !! os_path_join (app_temp_dir fm) name
  = None.
Proof.
  intros Hdir [Hne Hslash] Hprot.
  destruct (force_cleanup_all_disk fm d) as (d1 & Hd1 & Hsh1 & _).
  unfold force_cleanup_all. rewrite <- Hd1.
  destruct Hsh1 as (_ & Hdirs & Hp).
  unfold os_path_exists.
  rewrite (bool_decide_eq_true_2 (app_temp_dir fm ∈ d_dirs d1))
    by (rewrite Hdirs; exact Hdir).
  rewrite orb_true_r.
  destruct (os_listdir d1 (app_temp_dir fm)) as [names|] eqn:Hls.
  2:{ unfold os_listdir in Hls.
      rewrite bool_decide_eq_true_2 in Hls by (rewrite Hdirs; exact Hdir).
      discriminate. }
  simpl.
  destruct (d_files d1 !! os_path_join (app_temp_dir fm) name) as [f|] eqn:Hf.
  - apply (deletion_loop_gone (remove_if_file (app_temp_dir fm))
             (os_path_join (app_temp_dir fm)) names name).
    + intros. apply remove_if_file_shrinks.
    + intros. now apply remove_if_file_gone.
    + apply (os_listdir_elem d1 _ name names Hls Hne Hslash). eauto.
    + rewrite Hp. exact Hprot.
  - eapply disk_shrinks_absent; [|exact Hf].
    apply foldl_shrinks. intros. apply remove_if_file_shrinks.
Qed.

(** X8.  [force_cleanup_all] empties the registry and leaves the rest of
    the manager, the transfer records included, as it was.  On the disk it
    only deletes: afterwards every file that an entry of the registry
    pointed at, and every file that sits in the temporary directory under a
    plain name, is gone unless its path is protected. *)
Theorem force_cleanup_all_spec (fm : FileManager) (d : Disk) :
  (force_cleanup_all fm d).1 = set_file_registry ∅ fm /\
  disk_shrinks d (force_cleanup_all fm d).2 /\
  (forall file_id info,
      file_registry fm !! file_id = Some info ->
      fi_path info ∉ d_protected d ->
      d_files (force_cleanup_all fm d).2 !! fi_path info = None) /\
  (forall name,
      app_temp_dir fm ∈ d_dirs d -> plain_name name ->
      os_path_join (app_temp_dir fm) name ∉ d_protected d ->
      d_files (force_cleanup_all fm d).2
        !! os_path_join (app_temp_dir fm) name = None).
Proof.
  destruct (force_cleanup_all_disk fm d) as (d1 & Hd1 & Hsh1 & Hsh2).
  split; [|split; [|split]].
  - unfold force_cleanup_all. destruct (os_path_exists _ _); [|reflexivity].
    now destruct (os_listdir _ _).
  - eapply disk_shrinks_trans; eauto.
  - intros file_id info Hinfo Hprot.
    eapply disk_shrinks_absent; [exact Hsh2|]. rewrite Hd1.
    apply (deletion_loop_gone remove_if_exists (fun p => p)
             (fi_path <$> (map_to_list (file_registry fm)).*2)
             (fi_path info)).
    + intros. apply remove_if_exists_shrinks.
    + intros. now apply remove_if_exists_gone.
    + apply list_elem_of_fmap. exists info. split; [reflexivity|].
      apply list_elem_of_fmap. exists (file_id, info).
      split; [reflexivity|]. now apply elem_of_map_to_list.
    + exact Hprot.
  - intros name. apply force_cleanup_all_dir.
Qed.

(** The registry ["f1"] on its disk. *)
Lemma force_cleanup_all_spec_witness :
  d_files (force_cleanup_all fm_reg disk_reg).2 !! fi_path info1 = None.
Proof.
  apply (proj1 (proj2 (proj2 (force_cleanup_all_spec fm_reg disk_reg)))
           "f1" info1).
  - reflexivity.
  - apply (bool_decide_unpack (fi_path info1 ∉ d_protected disk_reg)).
    vm_compute. exact I.
Defined.

(** X9.  [force_cleanup_all] deletes the files of the transfers and keeps
    their records: for a transfer whose file has a plain name in the
    temporary directory, [get_file_by_code] still returns the record after
    the call, and [download_by_code] fails at every time, also before the
    expiry. *)
Theorem force_cleanup_all_breaks_transfer (draws : list nat)
    (uuid4 : string) (t0 t : datetime) (f : UploadedFile)
    (fm fm1 : FileManager) (d d1 : Disk) (code : string) :
  create_transfer_code draws uuid4 t0 f fm d
  = Some (Returned code, fm1, d1) ->
  app_temp_dir fm ∈ d_dirs d ->
  rfind "/" ("transfer_" +:+ uuid4 +:+ splitext_ext (uf_name f)) = -1 ->
  get_file_by_code code (force_cleanup_all fm1 d1).1
  = get_file_by_code code fm1 /\
  is_Some (get_file_by_code code fm1) /\
  (download_by_code code t (force_cleanup_all fm1 d1).1
     (force_cleanup_all fm1 d1).2).1.1 = None.
Proof.
  intros Hc Hdir Hslash.
  apply create_transfer_code_record in Hc as [-> Hw].
  set (name := "transfer_" +:+ uuid4 +:+ splitext_ext (uf_name f)) in *.
  set (p := os_path_join (app_temp_dir fm) name) in *.
  apply write_file_Some in Hw as (-> & Hpdir & Hpprot).
  set (fm1 := set_transfer_codes _ fm).
  set (d1 := set_files _ d).
  assert (d_files (force_cleanup_all fm1 d1).2 !! p = None) as Hgone.
  { apply (force_cleanup_all_dir fm1 d1 name).
    - exact Hdir.
    - split; [discriminate | exact Hslash].
    - exact Hpprot. }
  assert (p ∉ d_dirs (force_cleanup_all fm1 d1).2) as Hnodir.
  { destruct (force_cleanup_all_disk fm1 d1)
      as (d2 & _ & (_ & Hd2 & _) & (_ & -> & _)).
    rewrite Hd2. exact Hpdir. }
  pose proof (force_cleanup_all_codes fm1 d1) as Hcodes.
  assert (exists info, transfer_codes fm1 !! code = Some info /\
                       ti_file_path info = p) as (info & Hinfo & Hpath).
  { eexists. split; [apply lookup_insert_eq | reflexivity]. }
  set (fm2 := (force_cleanup_all fm1 d1).1) in *.
  set (d2 := (force_cleanup_all fm1 d1).2) in *.
  clearbody fm2 d2 fm1 d1.
  unfold get_file_by_code, download_by_code.
  rewrite Hcodes, Hinfo, Hpath.
  split; [reflexivity|]. split; [eauto|].
  destruct (_ <? t); [reflexivity|].
  unfold os_path_exists. rewrite Hgone.
  rewrite bool_decide_eq_false_2 by (intros [x Hx]; discriminate).
  rewrite bool_decide_eq_false_2 by exact Hnodir.
  reflexivity.
Qed.

(** The transfer of [sent], one minute after it was sent. *)
Lemma force_cleanup_all_breaks_transfer_witness :
  get_file_by_code "1234" (force_cleanup_all sent.1 sent.2).1
  = get_file_by_code "1234" sent.1 /\
  is_Some (get_file_by_code "1234" sent.1) /\
  (download_by_code "1234" (timedelta_minutes 1)
     (force_cleanup_all sent.1 sent.2).1
     (force_cleanup_all sent.1 sent.2).2).1.1 = None.
Proof.
  apply (force_cleanup_all_breaks_transfer [234%nat] "u1" 0
           (timedelta_minutes 1) a_pdf fresh.1 sent.1 fresh.2 sent.2 "1234").
  - vm_compute. reflexivity.
  - apply (bool_decide_unpack (app_temp_dir fresh.1 ∈ d_dirs fresh.2)).
    vm_compute. exact I.
  - vm_compute. reflexivity.
Defined.

(** ** The orphan pass, file by file *)

Lemma orphan_step_keeps (now : datetime) (dir : string) (paths : gset string)
    (window : Z) (d : Disk) (x p : string) :
  p ∈ paths \/ p ∈ d_protected d \/
  (forall f, d_files d !! p = Some f ->
             now - df_mtime f <= window * 60 * microseconds_per_second) \/
  os_path_join dir x <> p ->
  d_files (orphan_step now dir paths window d x) !! p = d_files d !! p.
Proof.
  intros Hkeep. unfold orphan_step.
  case_bool_decide as Hreg; [reflexivity|].
  unfold os_path_getmtime.
  destruct (d_files d !! os_path_join dir x) as [f|] eqn:Hf; [|reflexivity].
  simpl. destruct (_ <? _) eqn:Hold; [|reflexivity].
  destruct (os_remove d _) as [d'|] eqn:Hr; [|reflexivity].
  destruct (decide (os_path_join dir x = p)) as [Heq|Hne].
  - exfalso. rewrite Heq in *. apply Z.ltb_lt in Hold.
    apply os_remove_Some in Hr as (_ & Hprot & _).
    destruct Hkeep as [H|[H|[H|H]]]; try contradiction.
    specialize (H f Hf). lia.
  - eapply os_remove_other; eauto.
Qed.

Lemma orphan_loop_keeps (now : datetime) (dir : string) (paths : gset string)
    (window : Z) (p : string) (names : list string) :
  forall d : Disk,
    p ∈ paths \/ p ∈ d_protected d \/
    (forall f, d_files d !! p = Some f ->
               now - df_mtime f <= window * 60 * microseconds_per_second) \/
    (forall x, x ∈ names -> os_path_join dir x <> p) ->
    d_files (foldl (orphan_step now dir paths window) d names) !! p
    = d_files d !! p.
Proof.
  induction names as [|x names IH]; intros d Hkeep; [reflexivity|].
  simpl.
  assert (d_files (orphan_step now dir paths window d x) !! p
          = d_files d !! p) as Hstep.
  { apply orphan_step_keeps.
    destruct Hkeep as [H|[H|[H|H]]]; auto.
    right. right. right. apply H. left. }
  rewrite IH; [exact Hstep|].
  destruct (orphan_step_shrinks now dir paths window d x) as (_ & _ & Hprot).
  destruct Hkeep as [H|[H|[H|H]]]; auto.
  - right. left. now rewrite Hprot.
  - right. right. left. intros f Hf. apply H. now rewrite <- Hstep.
  - right. right. right. intros y Hy. apply H. now right.
Qed.

Lemma registered_paths (fm : FileManager) (p : string) :
  p ∈ (map_img (fi_path <$> file_registry fm) : gset string) <->
  registered fm p.
Proof.
  unfold registered. rewrite elem_of_map_img. split.
  - intros (k & Hk). rewrite lookup_fmap in Hk.
    destruct (file_registry fm !! k) as [i|] eqn:Hi; [|discriminate].
    injection Hk as Hk. eauto.
  - intros (k & i & Hi & Hp). exists k. now rewrite lookup_fmap, Hi, <- Hp.
Qed.

(** X10.  The orphan pass, file by file.  [_cleanup_orphaned_files] only
    deletes.  It keeps every file whose path is registered, or is
    protected, or lies outside the temporary directory, or whose last
    modification is at most [expiration_minutes] old.  It deletes every
    file of the temporary directory with a plain name that is not
    registered, not protected and older than that. *)
Theorem cleanup_orphaned_files_spec (now : datetime) (fm : FileManager)
    (d : Disk) (p : string) :
  disk_shrinks d (_cleanup_orphaned_files now fm d) /\
  (registered fm p \/ p ∈ d_protected d \/ ~ older_than_window now fm d p \/
   (forall name, p <> os_path_join (app_temp_dir fm) name) ->
   d_files (_cleanup_orphaned_files now fm d) !! p = d_files d !! p) /\
  (forall name,
      p = os_path_join (app_temp_dir fm) name -> plain_name name ->
      app_temp_dir fm ∈ d_dirs d ->
      ~ registered fm p -> p ∉ d_protected d ->
      older_than_window now fm d p ->
      d_files (_cleanup_orphaned_files now fm d) !! p = None).
Proof.
  split; [apply cleanup_orphaned_files_shrinks|]. split.
  - intros Hkeep. unfold _cleanup_orphaned_files.
    destruct (negb _); [reflexivity|].
    destruct (os_listdir d _) as [names|]; [|reflexivity].
    apply orphan_loop_keeps.
    destruct Hkeep as [H|[H|[H|H]]].
    + left. now apply registered_paths.
    + right. now left.
    + right. right. left. intros f Hf.
      destruct (Z_lt_le_dec (expiration_minutes fm * 60
                             * microseconds_per_second)
                            (now - df_mtime f)) as [Hold|Hyoung];
        [|exact Hyoung].
      exfalso. apply H. exists f. split; [exact Hf | exact Hold].
    + right. right. right. intros x _ Heq. now apply (H x).
  - intros name -> [Hne Hslash] Hdir Hreg Hprot (f & Hf & Hold).
    unfold _cleanup_orphaned_files, os_path_exists.
    rewrite (bool_decide_eq_true_2 (app_temp_dir fm ∈ d_dirs d)) by exact Hdir.
    rewrite orb_true_r. simpl.
    destruct (os_listdir d (app_temp_dir fm)) as [names|] eqn:Hls.
    2:{ unfold os_listdir in Hls.
        rewrite bool_decide_eq_true_2 in Hls by exact Hdir. discriminate. }
    apply orphan_loop_deletes.
    + intros Hin. apply Hreg. now apply registered_paths.
    + right. split; [|split].
      * apply (os_listdir_elem d _ name names Hls Hne Hslash). eauto.
      * exact Hprot.
      * exists f. split; [exact Hf | exact Hold].
Qed.

(** The file of the transfer of [sent], 31 minutes old. *)
Lemma cleanup_orphaned_files_spec_witness :
  d_files (_cleanup_orphaned_files (timedelta_minutes 31) sent.1 sent.2)
    !! "/tmp/pdf_processor/transfer_u1.pdf" = None.
Proof.
  apply (proj2 (proj2 (cleanup_orphaned_files_spec (timedelta_minutes 31)
                         sent.1 sent.2 "/tmp/pdf_processor/transfer_u1.pdf"))
           "transfer_u1.pdf").
  - vm_compute. reflexivity.
  - split; [discriminate | vm_compute; reflexivity].
  - apply (bool_decide_unpack (app_temp_dir sent.1 ∈ d_dirs sent.2)).
    vm_compute. exact I.
  - intros (k & i & Hi & _). vm_compute in Hi. discriminate.
  - apply (bool_decide_unpack
             ("/tmp/pdf_processor/transfer_u1.pdf" ∉ d_protected sent.2)).
    vm_compute. exact I.
  - exists (mkDiskFile (uf_value a_pdf) 0).
    split; vm_compute; reflexivity.
Defined.

(** ** [save_processed_file] and [create_download_link] *)



(** ** [get_storage_stats] *)

Lemma get_storage_stats_normal (fm : FileManager) (d : Disk) :
  app_temp_dir fm ∈ d_dirs d ->
  managed_files (get_storage_stats fm d) = size (file_registry fm) /\
  managed_size_mb (get_storage_stats fm d)
  = bytes_to_mb (sum_list (fi_size <$> (map_to_list (file_registry fm)).*2)).
Proof.
  intros Hdir. unfold get_storage_stats, os_path_exists, os_listdir.
  rewrite (bool_decide_eq_true_2 (app_temp_dir fm ∈ d_dirs d)) by exact Hdir.
  rewrite orb_true_r. split; reflexivity.
Qed.

Lemma registry_size_insert (reg : gmap string FileInfo) (k : string)
    (i : FileInfo) :
  reg !! k = None ->
  sum_list (fi_size <$> (map_to_list (<[k := i]> reg)).*2)
  = (fi_size i + sum_list (fi_size <$> (map_to_list reg).*2))%nat.
Proof.
  intros Hk. rewrite (map_to_list_insert reg k i Hk). reflexivity.
Qed.

(** X12.  [get_storage_stats].  When the path of the temporary directory
    exists but is not a directory, the listing fails and every count is
    reported as zero, whatever the registry holds.  When the directory
    exists, [managed_files] is the number of entries of the registry; an
    upload under a new uuid raises it by one and raises the managed size by
    the number of bytes uploaded, and [force_cleanup_all] brings both back
    to zero. *)
Theorem get_storage_stats_spec (fm : FileManager) (d : Disk) :
  (is_Some (d_files d !! app_temp_dir fm) ->
   app_temp_dir fm ∉ d_dirs d ->
   get_storage_stats fm d
   = mkStorageStats 0 (bytes_to_mb 0) (bytes_to_mb 0)
       (expiration_minutes fm)) /\
  (app_temp_dir fm ∈ d_dirs d ->
   managed_files (get_storage_stats fm d) = size (file_registry fm) /\
   (forall uuid4 now f is_admin p fm1 d1,
       file_registry fm !! uuid4 = None ->
       save_uploaded_file uuid4 now f is_admin fm d = (Returned p, fm1, d1) ->
       managed_files (get_storage_stats fm1 d1)
       = S (managed_files (get_storage_stats fm d)) /\
       exists total,
         managed_size_mb (get_storage_stats fm d) = bytes_to_mb total /\
         managed_size_mb (get_storage_stats fm1 d1)
         = bytes_to_mb (length (uf_value f) + total)) /\
   managed_files (get_storage_stats (force_cleanup_all fm d).1
                    (force_cleanup_all fm d).2) = 0%nat /\
   managed_size_mb (get_storage_stats (force_cleanup_all fm d).1
                      (force_cleanup_all fm d).2) = bytes_to_mb 0).
Proof.
  split.
  - intros Hfile Hnodir. unfold get_storage_stats, os_path_exists, os_listdir.
    rewrite (bool_decide_eq_true_2 _ Hfile).
    rewrite (bool_decide_eq_false_2 _ Hnodir). reflexivity.
  - intros Hdir.
    destruct (get_storage_stats_normal fm d Hdir) as [Hn Hs].
    split; [exact Hn|]. split.
    + intros uuid4 now f is_admin p fm1 d1 Hnew Hsave.
      apply save_uploaded_file_record in Hsave as (_ & -> & Hw).
      apply write_file_Some in Hw as (-> & _ & _).
      destruct (get_storage_stats_normal
                  (set_file_registry
                     (<[uuid4 := mkFileInfo p (uf_name f) now
                                   (if is_admin
                                    then now + timedelta_hours
                                                 (admin_expiration_hours fm)
                                    else now + timedelta_minutes
                                                 (expiration_minutes fm))
                                   (length (uf_value f)) (Some is_admin)
                                   (Some uuid4)]> (file_registry fm)) fm)
                  (set_files (<[p := mkDiskFile (uf_value f) now]> (d_files d))
                     d) Hdir) as [Hn1 Hs1].
      rewrite Hn1, Hn, Hs1, Hs. simpl. split.
      * now apply map_size_insert_None.
      * eexists. split; [reflexivity|].
        now rewrite registry_size_insert.
    + destruct (force_cleanup_all_disk fm d)
        as (d2 & _ & (_ & Hd2 & _) & (_ & Hd3 & _)).
      assert ((force_cleanup_all fm d).1 = set_file_registry ∅ fm) as Hfm.
      { unfold force_cleanup_all. destruct (os_path_exists _ _); [|reflexivity].
        now destruct (os_listdir _ _). }
      destruct (get_storage_stats_normal (force_cleanup_all fm d).1
                  (force_cleanup_all fm d).2) as [Hn2 Hs2].
      { rewrite Hfm, Hd3, Hd2. exact Hdir. }
      rewrite Hn2, Hs2, Hfm. simpl.
      rewrite map_to_list_empty. split; reflexivity.
Qed.

(** An upload of four bytes into the registry ["f1"]. *)
Lemma get_storage_stats_spec_witness :
  managed_files (get_storage_stats fm_reg disk_reg)
  = size (file_registry fm_reg) /\
  (forall uuid4 now f is_admin p fm1 d1,
      file_registry fm_reg !! uuid4 = None ->
      save_uploaded_file uuid4 now f is_admin fm_reg disk_reg
      = (Returned p, fm1, d1) ->
      managed_files (get_storage_stats fm1 d1)
      = S (managed_files (get_storage_stats fm_reg disk_reg)) /\
      exists total,
        managed_size_mb (get_storage_stats fm_reg disk_reg)
        = bytes_to_mb total /\
        managed_size_mb (get_storage_stats fm1 d1)
        = bytes_to_mb (length (uf_value f) + total)) /\
  managed_files (get_storage_stats (force_cleanup_all fm_reg disk_reg).1
                   (force_cleanup_all fm_reg disk_reg).2) = 0%nat /\
  managed_size_mb (get_storage_stats (force_cleanup_all fm_reg disk_reg).1
                     (force_cleanup_all fm_reg disk_reg).2) = bytes_to_mb 0.
Proof.
  apply (proj2 (get_storage_stats_spec fm_reg disk_reg)).
  apply (bool_decide_unpack (app_temp_dir fm_reg ∈ d_dirs disk_reg)).
  vm_compute. exact I.
Defined.

(** ** Successful downloads *)

(** [download_by_code] succeeds exactly on a record that has not expired
    and whose file can be read. *)
Lemma download_by_code_Some (code : string) (t : datetime)
    (fm : FileManager) (d : Disk) (data : bytes) (name : string) :
  (download_by_code code t fm d).1.1 = Some (data, name) <->
  exists info,
    transfer_codes fm !! code = Some info /\ t <= ti_expires_at info /\
    read_file d (ti_file_path info) = Some data /\
    name = ti_original_name info.
Proof.
  unfold download_by_code, os_path_exists, read_file.
  destruct (transfer_codes fm !! code) as [info|] eqn:Hinfo.
  2:{ split; [discriminate | intros (i & [=] & _)]. }
  destruct (ti_expires_at info <? t) eqn:Hexp.
  { apply Z.ltb_lt in Hexp. split; [discriminate|].
    intros (i & [= <-] & Ht & _). lia. }
  apply Z.ltb_ge in Hexp.
  destruct (d_files d !! ti_file_path info) as [f|] eqn:Hf; simpl.
  - split.
    + intros [= <- <-]. exists info. rewrite Hf. auto.
    + intros (i & [= <-] & _ & Hr & ->). rewrite Hf in Hr.
      injection Hr as <-. reflexivity.
  - split.
    + destruct (negb _); discriminate.
    + intros (i & [= <-] & _ & Hr & _). rewrite Hf in Hr. discriminate.
Qed.

Lemma download_by_code_state (code : string) (t : datetime)
    (fm : FileManager) (d : Disk) (data : bytes) (name : string) :
  (download_by_code code t fm d).1.1 = Some (data, name) ->
  exists info,
    transfer_codes fm !! code = Some info /\
    download_by_code code t fm d
    = (Some (data, name),
       set_transfer_codes
         (<[code := set_downloaded true info]> (transfer_codes fm)) fm,
       d).
Proof.
  unfold download_by_code.
  destruct (transfer_codes fm !! code) as [info|]; [|discriminate].
  destruct (_ <? t); [discriminate|].
  destruct (negb _); [discriminate|].
  destruct (read_file d _); [|discriminate].
  simpl. intros [= <- <-]. eauto.
Qed.

(** X13.  A successful [download_by_code] does not use the code up.  It
    leaves the disk and the registry as they are, sets the ['downloaded']
    flag of its own record and touches no other record; and every later
    call with the same code, up to the expiry, returns the same bytes and
    the same name again. *)
Theorem download_by_code_repeatable (code : string) (t t' : datetime)
    (fm : FileManager) (d : Disk) (data : bytes) (name : string) :
  (download_by_code code t fm d).1.1 = Some (data, name) ->
  (download_by_code code t fm d).2 = d /\
  file_registry (download_by_code code t fm d).1.2 = file_registry fm /\
  ti_downloaded <$> get_file_by_code code (download_by_code code t fm d).1.2
  = Some true /\
  (forall c, c <> code ->
             get_file_by_code c (download_by_code code t fm d).1.2
             = get_file_by_code c fm) /\
  (forall info,
      get_file_by_code code fm = Some info -> t' <= ti_expires_at info ->
      (download_by_code code t' (download_by_code code t fm d).1.2 d).1.1
      = Some (data, name)).
Proof.
  intros Hok.
  pose proof (proj1 (download_by_code_Some code t fm d data name) Hok)
    as (info & Hinfo & _ & Hread & Hname).
  apply download_by_code_state in Hok as (info' & Hinfo' & ->).
  assert (info' = info) as -> by congruence.
  simpl. unfold get_file_by_code. simpl.
  split; [reflexivity|]. split; [reflexivity|].
  split; [now rewrite lookup_insert_eq|].
  split; [intros c Hc; apply lookup_insert_ne; congruence|].
  intros i Hi Ht'. assert (i = info) as -> by congruence.
  apply download_by_code_Some. exists (set_downloaded true info).
  simpl. rewrite lookup_insert_eq. auto.
Qed.

(** The transfer of [sent], downloaded after one hour and after two. *)
Lemma download_by_code_repeatable_witness :
  (download_by_code "1234" (timedelta_hours 1) sent.1 sent.2).2 = sent.2 /\
  file_registry (download_by_code "1234" (timedelta_hours 1) sent.1
                   sent.2).1.2 = file_registry sent.1 /\
  ti_downloaded <$>
    get_file_by_code "1234"
      (download_by_code "1234" (timedelta_hours 1) sent.1 sent.2).1.2
  = Some true /\
  (forall c, c <> "1234" ->
             get_file_by_code c
               (download_by_code "1234" (timedelta_hours 1) sent.1
                  sent.2).1.2
             = get_file_by_code c sent.1) /\
  (forall info,
      get_file_by_code "1234" sent.1 = Some info ->
      timedelta_hours 2 <= ti_expires_at info ->
      (download_by_code "1234" (timedelta_hours 2)
         (download_by_code "1234" (timedelta_hours 1) sent.1 sent.2).1.2
         sent.2).1.1
      = Some (uf_value a_pdf, "a.pdf")).
Proof.
  apply (download_by_code_repeatable "1234" (timedelta_hours 1)
           (timedelta_hours 2) sent.1 sent.2 (uf_value a_pdf) "a.pdf").
  vm_compute. reflexivity.
Defined.


(** ** The receiving page *)






